(** * gnomad_qc v3: a shallow embedding of the QC scripts

  The scripts under [gnomad_qc/v3] are sequences of calls into a
  dataframe engine.  What is embedded here is the part the scripts
  themselves decide: command line validation, the flags given to
  each checkpoint, name resolution and calls, the mutable objects
  they share, and the expressions they build over engine values
  (which may be missing).  Engine operations and resource paths
  these scripts import from elsewhere are taken as parameters. *)

From Stdlib Require Import ZArith List Lia Bool Reals Lra.
From stdpp Require Import base option strings gmap list sorting pretty.

Local Open Scope Z_scope.

(** ** Python runtime: exceptions and results *)
Module Py.

Inductive exn : Type :=
| TypeError (msg : string)
| NameError (name : string)
| ValueError (msg : string)
| EngineError (msg : string).

Inductive result (A : Type) : Type :=
| Ok (a : A)
| Raise (e : exn).
Arguments Ok {A} a.
Arguments Raise {A} e.

(** Statements run in sequence: an exception ends the sequence. *)
#[global] Instance result_bind : MBind result := fun A B k r =>
  match r with
  | Ok a => k a
  | Raise e => Raise e
  end.
#[global] Instance result_ret : MRet result := fun A a => Ok a.

Definition raises {A} (r : result A) : Prop :=
  match r with
  | Ok _ => False
  | Raise _ => True
  end.

(** Truth value of an [Optional[str]]: [None] and the empty string
    are false, every other string is true. *)
Definition truthy (o : option string) : bool :=
  match o with
  | None => false
  | Some s => negb (String.eqb s EmptyString)
  end.

(** A name is bound to some object; only functions can be called.
    Calling a string raises [TypeError]. *)
Inductive pyval (A : Type) : Type :=
| PyStr (s : string)
| PyFunction (f : A).
Arguments PyStr {A} s.
Arguments PyFunction {A} f.

Definition call0 {A} (v : pyval (result A)) : result A :=
  match v with
  | PyStr _ => Raise (TypeError "'str' object is not callable")
  | PyFunction f => f
  end.

(** [l.remove(x)]: drops the first occurrence of [x], raises
    [ValueError] when there is none. *)
Fixpoint list_remove (x : string) (l : list string) : result (list string) :=
  match l with
  | [] => Raise (ValueError "list.remove(x): x not in list")
  | y :: l' =>
    if String.eqb x y then Ok l'
    else match list_remove x l' with
         | Ok r => Ok (y :: r)
         | Raise e => Raise e
         end
  end.

(** Code that reads and writes a state [S] and may raise: the state
    reached when the exception is raised is kept. *)
Definition M (S A : Type) : Type := S -> result A * S.

#[global] Instance M_ret {S} : MRet (M S) := fun A a s => (Ok a, s).
#[global] Instance M_bind {S} : MBind (M S) := fun A B k m s =>
  match m s with
  | (Ok a, s') => k a s'
  | (Raise e, s') => (Raise e, s')
  end.

Definition lift {S A} (r : result A) : M S A := fun s => (r, s).

Definition when_flag {S} (b : bool) (m : M S unit) : M S unit :=
  if b then m else mret tt.

End Py.

(** ** variant_qc/random_forest.py *)
Module RandomForest.
Import Py.

Definition LABEL_COL : string := "rf_label".
Definition TRAIN_COL : string := "rf_train".
Definition PREDICTION_COL : string := "rf_prediction".

Definition INFO_FEATURES : list string :=
  ["AS_QD"; "AS_ReadPosRankSum"; "AS_MQRankSum"; "AS_SOR"; "AS_pab_max"].

(** The list object the module binds to [FEATURES] when it is loaded. *)
Definition FEATURES_initial : list string :=
  ["InbreedingCoeff"; "variant_type"; "allele_type"; "n_alt_alleles";
   "was_mixed"; "AS_QD"; "AS_pab_max"; "AS_MQRankSum"; "AS_SOR";
   "AS_ReadPosRankSum"].

Definition TRUTH_DATA : list string := ["hapmap"; "omni"; "mills"; "kgp_phase1_hc"].

(** *** Command line *)

(** The namespace built by [parser.parse_args()].  The numeric
    hyper-parameters ([--fp_to_tp], [--num_trees], [--max_depth],
    [--n_partitions]) and [--test_intervals], [--vqsr_type] are only
    handed to the engine and are left out. *)
Record args : Type := {
  slack_channel : option string;
  overwrite : bool;
  run_hash : option string;
  list_rf_runs : bool;
  annotate_for_rf : bool;
  train_rf_flag : bool;
  apply_rf : bool;
  finalize : bool;
  impute_features_no_variant_type : bool;
  adj : bool;
  vqsr_training : bool;
  no_transmitted_singletons : bool;
  no_inbreeding_coeff : bool;
  filter_centromere_telomere : bool
}.

(** What the [if __name__ == "__main__"] block does once the
    arguments are parsed: leave through [sys.exit] with a message,
    or call [main(args)], inside [slack_notifications] or not. *)
Inductive outcome : Type :=
| SysExit (msg : string)
| RunMain (with_slack : bool) (a : args).

Definition run_hash_required_msg : string :=
  "Error: --run_hash is required when running --apply_rf without running --train_rf too.".

Definition mutually_exclusive_msg : string :=
  "Error: --run_hash and --train_rf are mutually exclusive. --train_rf will generate a run hash.".

Definition script (a : args) : outcome :=
  if negb (truthy (run_hash a)) && negb (train_rf_flag a) && apply_rf a then
    SysExit run_hash_required_msg
  else if truthy (run_hash a) && train_rf_flag a then
    SysExit mutually_exclusive_msg
  else if truthy (slack_channel a) then
    RunMain true a
  else
    RunMain false a.

Definition exits (o : outcome) : Prop :=
  match o with
  | SysExit _ => True
  | RunMain _ _ => False
  end.

(** *** Module-level objects and [train_rf] *)

(** Python lists are objects on a heap and names hold references to
    them.  The module loads with [FEATURES] bound to a fresh list. *)
Abbreviation ref := nat (only parsing).
Abbreviation heap := (gmap nat (list string)) (only parsing).

Definition FEATURES : ref := 0%nat.

Definition initial_heap : heap := {[ FEATURES := FEATURES_initial ]}.

Definition deref (r : ref) : M heap (list string) := fun h =>
  match h !! r with
  | Some l => (Ok l, h)
  | None => (Raise (NameError "dangling reference"), h)
  end.

(** [r.remove(x)] updates the object [r] refers to, in place. *)
Definition remove_in_place (r : ref) (x : string) : M heap unit := fun h =>
  match h !! r with
  | Some l =>
    match list_remove x l with
    | Ok l' => (Ok tt, <[ r := l' ]> h)
    | Raise e => (Raise e, h)
    end
  | None => (Raise (NameError "dangling reference"), h)
  end.

(** [train_rf(ht, args)].  The table work (the VQSR or truth-data
    labels, the interval parsing, the centromere filter and the final
    join) is the engine's; [train_rf_model] stands for it and receives
    the content of the list [features] refers to at the time of the
    call.  It has no access to the heap. *)
Definition train_rf {Model : Type}
    (train_rf_model : args -> list string -> result Model)
    (a : args) : M heap Model :=
  let features := FEATURES in
  _ ← when_flag (no_inbreeding_coeff a) (remove_in_place features "InbreedingCoeff");
  rf_features ← deref features;
  lift (train_rf_model a rf_features).

(** *** Run hashes *)

(** [str(uuid.uuid4())[:8]] *)
Definition first8 (uuid : string) : string := String.substring 0 8 uuid.

(** [get_rf_runs]: the content of the JSON file, or an empty
    dictionary (and a warning in the log) when there is no file. *)
Definition get_rf_runs {V} (file : option (gmap string V)) : gmap string V :=
  match file with
  | Some runs => runs
  | None => ∅
  end.

(** [while run_hash in rf_runs: run_hash = str(uuid.uuid4())[:8]].
    [uuid4 n] is what the [n]-th call of [uuid.uuid4()] returns and
    [draws] counts the calls made so far; [fuel] bounds the number of
    iterations. *)
Fixpoint regenerate {V} (fuel : nat) (uuid4 : nat -> string) (draws : nat)
    (run_hash : string) (rf_runs : gmap string V) : option (string * nat) :=
  if bool_decide (run_hash ∈ dom rf_runs) then
    match fuel with
    | O => None
    | S fuel' => regenerate fuel' uuid4 (S draws) (first8 (uuid4 draws)) rf_runs
    end
  else Some (run_hash, draws).

Definition new_run_hash {V} (fuel : nat) (uuid4 : nat -> string)
    (rf_runs : gmap string V) : option (string * nat) :=
  regenerate fuel uuid4 1 (first8 (uuid4 O)) rf_runs.

(** The [if args.train_rf:] block of [main].  [train] stands for
    training, checkpointing and [get_run_data]; when it returns, the
    run is registered under the hash and the dictionary is what
    [json.dump] writes back.  [None]: the loop used up its fuel. *)
Definition main_train_rf {V} (fuel : nat) (uuid4 : nat -> string)
    (train : string -> result V) (file : option (gmap string V))
    : option (result (string * gmap string V)) :=
  let rf_runs := get_rf_runs file in
  match new_run_hash fuel uuid4 rf_runs with
  | None => None
  | Some (run_hash, _) =>
    Some (run_data ← train run_hash;
          mret (run_hash, <[ run_hash := run_data ]> rf_runs))
  end.

(** *** Strand odds ratio *)

(** The float64 operations [calc_SOR] uses. *)
Class Float64 (F : Type) : Type := {
  hl_float64 : Z -> F;
  fadd : F -> F -> F;
  fsub : F -> F -> F;
  fmul : F -> F -> F;
  fdiv : F -> F -> F;
  hl_min : F -> F -> F;
  hl_max : F -> F -> F;
  hl_log : F -> F
}.

(** [a[i]] on an array: an index out of range is an error. *)
Definition index (a : list Z) (i : nat) : result Z :=
  match a !! i with
  | Some x => Ok x
  | None => Raise (EngineError "array index out of bounds")
  end.

(** [x + y] on two 32-bit integers of the engine: the sum keeps its
    low 32 bits, in two's complement. *)
Definition int32_add (x y : Z) : Z := (x + y + 2 ^ 31) mod 2 ^ 32 - 2 ^ 31.

(** [calc_SOR(SB)], the function local to [create_rf_ht].  The counts
    are 32-bit integers of the engine; one is added to each, as a
    32-bit integer, before the conversion to float64. *)
Definition calc_SOR {F} `{Float64 F} (SB : list Z) : result F :=
  sb0 ← index SB 0;
  sb1 ← index SB 1;
  sb2 ← index SB 2;
  sb3 ← index SB 3;
  let refFw := hl_float64 (int32_add sb0 1) in
  let refRv := hl_float64 (int32_add sb1 1) in
  let altFw := hl_float64 (int32_add sb2 1) in
  let altRv := hl_float64 (int32_add sb3 1) in
  let symmetricalRatio :=
    fadd (fdiv (fmul refFw altRv) (fmul altFw refRv))
         (fdiv (fmul altFw refRv) (fmul refFw altRv)) in
  let refRatio := fdiv (hl_min refRv refFw) (hl_max refRv refFw) in
  let altRatio := fdiv (hl_min altFw altRv) (hl_max altFw altRv) in
  let SOR := fsub (fadd (hl_log symmetricalRatio) (hl_log refRatio)) (hl_log altRatio) in
  mret SOR.

(** The published strand-odds-ratio formula, on the four counts after
    the pseudocount is added. *)
Definition gatk_SOR {F} `{Float64 F} (refFw refRv altFw altRv : F) : F :=
  fsub
    (fadd
       (hl_log (fadd (fdiv (fmul refFw altRv) (fmul altFw refRv))
                     (fdiv (fmul altFw refRv) (fmul refFw altRv))))
       (hl_log (fdiv (hl_min refRv refFw) (hl_max refRv refFw))))
    (hl_log (fdiv (hl_min altFw altRv) (hl_max altFw altRv))).

End RandomForest.


(** ** The engine's tables, files and checkpoints *)
Module Engine.
Import Py.

(** Files on shared storage, by path. *)
Inductive file (Table MatrixTable : Type) : Type :=
| TableFile (t : Table)
| VcfFile (mt : MatrixTable)
| TextFile (text : string).
Arguments TableFile {Table MatrixTable} t.
Arguments VcfFile {Table MatrixTable} mt.
Arguments TextFile {Table MatrixTable} text.

Section Files.
Context {Table MatrixTable : Type}.

Definition fs : Type := gmap string (file Table MatrixTable).

(** [hl.read_table(path)] *)
Definition read_table (path : string) : M fs Table := fun s =>
  match s !! path with
  | Some (TableFile t) => (Ok t, s)
  | _ => (Raise (EngineError "no table at this path"), s)
  end.

(** [hl.export_vcf(mt, path)] *)
Definition export_vcf (mt : MatrixTable) (path : string) : M fs unit := fun s =>
  (Ok tt, <[ path := VcfFile mt ]> s).

(** [with hl.hadoop_open(path, 'w') as f: f.write(text)] *)
Definition write_text (path text : string) : M fs unit := fun s =>
  (Ok tt, <[ path := TextFile text ]> s).

End Files.

(** The keyword arguments of a [checkpoint] call; both default to
    [False]. *)
Record flags : Type := {
  overwrite : bool;
  _read_if_exists : bool
}.

(** Modelled from the spec: the engine's checkpoint primitive, which
    is not part of the repository.  With read-if-exists it returns the
    table already persisted at the path, when there is one, and leaves
    the store alone; otherwise it writes the table it is called on
    (an error when the path exists and [overwrite] is off) and returns
    it. *)
Definition checkpoint {T} (t : T) (output : string) (f : flags) : M (gmap string T) T :=
  fun store =>
    match store !! output with
    | Some persisted =>
      if _read_if_exists f then (Ok persisted, store)
      else if overwrite f then (Ok t, <[ output := t ]> store)
      else (Raise (EngineError "path already exists"), store)
    | None => (Ok t, <[ output := t ]> store)
    end.

End Engine.

(** ** Checkpoint calls of the pipeline stages *)
Module Checkpoints.
Import Engine.

(** The stages the three scripts select by flag. *)
Inductive stage : Type :=
(* annotations/generate_qc_annotations.py *)
| compute_info | split_info | export_info_vcf | generate_allele_data
| generate_ac | generate_fam_stats | export_transmitted_singletons_vcf | vep
(* sample_qc/sample_qc.py *)
| sample_qc | impute_sex | reannotate_sex | compute_hard_filters
| compute_qc_mt | run_pc_relate | reannotate_relatedness | run_pca
| assign_pops | calculate_inbreeding | calculate_clinvar
| apply_stratified_filters | apply_regressed_filters
| compute_related_samples_to_drop | generate_metadata
(* variant_qc/random_forest.py *)
| list_rf_runs | annotate_for_rf | train_rf | apply_rf.

(** Paths the scripts import from [gnomad_qc.v3.resources]. *)
Record resources : Type := {
  pc_relate_pca_scores_path : string;
  pca_samples_rankings_path : string;
  pca_related_samples_to_drop_path : string;
  pop_path : string;
  release_samples_rankings_path : string;
  meta_path : string;
  get_checkpoint_path : string -> string;
  get_rf_path : string -> string -> string
}.

(** A call site: where it writes, and the flags it passes as a
    function of [args.overwrite]. *)
Record site : Type := {
  output : string;
  call_flags : bool -> flags
}.

(** [.checkpoint(p, overwrite=args.overwrite, _read_if_exists=not args.overwrite)] *)
Definition resumable (p : string) : site :=
  {| output := p;
     call_flags := fun ow => {| overwrite := ow; _read_if_exists := negb ow |} |}.

(** [.checkpoint(p, overwrite=True)] *)
Definition always_overwrite (p : string) : site :=
  {| output := p;
     call_flags := fun _ => {| overwrite := true; _read_if_exists := false |} |}.

(** [.checkpoint(p, overwrite=args.overwrite)] *)
Definition overwrite_on_request (p : string) : site :=
  {| output := p;
     call_flags := fun ow => {| overwrite := ow; _read_if_exists := false |} |}.

(** The checkpoint calls a stage makes, in source order.  [run_hash]
    is the hash [main] of the random-forest script works under.
    Checkpoints taken inside functions of the engine library are not
    listed. *)
Definition stage_checkpoints (res : resources) (run_hash : string) (st : stage) : list site :=
  match st with
  | generate_ac => [resumable "gs://gnomad-tmp/ac_tmp.ht"]
  | generate_fam_stats => [resumable "gs://gnomad-tmp/fam_stats_tmp.ht"]
  | reannotate_sex =>
    [always_overwrite "gs://gnomad-tmp/sex_ht_checkpoint.ht";
     always_overwrite "gs://gnomad-tmp/hardfilter_checkpoint.ht"]
  | compute_qc_mt =>
    [always_overwrite "gs://gnomad-tmp/gnomad_v3_qc_mt_v2_sites_dense.mt";
     always_overwrite "gs://gnomad-tmp/gnomad_v3_qc_mt_v2_sites_dense_repartitioned.mt"]
  | run_pc_relate => [resumable (pc_relate_pca_scores_path res)]
  | reannotate_relatedness =>
    [always_overwrite "gs://gnomad-tmp/relatedness_ht_checkpoint.ht"]
  | run_pca =>
    [resumable (pca_samples_rankings_path res);
     resumable (pca_related_samples_to_drop_path res)]
  | assign_pops => [resumable (pop_path res)]
  | calculate_clinvar => [always_overwrite "gs://gnomad-tmp/clinvar_variants.mt"]
  | compute_related_samples_to_drop => [resumable (release_samples_rankings_path res)]
  | generate_metadata => [resumable (meta_path res)]
  | annotate_for_rf =>
    let checkpoint_path := get_checkpoint_path res "rf_annotation" in
    if String.eqb checkpoint_path EmptyString then []
    else [always_overwrite checkpoint_path]
  | train_rf => [overwrite_on_request (get_rf_path res "training" run_hash)]
  | apply_rf => [overwrite_on_request (get_rf_path res "rf_result" run_hash)]
  | _ => []
  end.

(** Running a call site on a table, with [--overwrite] given or not. *)
Definition run_site {T} (c : site) (args_overwrite : bool) (t : T)
    : Py.M (gmap string T) T :=
  checkpoint t (output c) (call_flags c args_overwrite).

(** A call site reads if exists when, without [--overwrite], it passes
    [_read_if_exists=True] and [overwrite=False]. *)
Definition reads_if_exists (c : site) : Prop :=
  _read_if_exists (call_flags c false) = true
  /\ overwrite (call_flags c false) = false.

(** For each call of [stage_checkpoints], in the same order: whether
    the stage binds the table the call returns, as in
    [ht = ht.checkpoint(...)], or calls [checkpoint] as a statement
    and carries on with the table it called it on. *)
Definition result_bound (st : stage) : list bool :=
  match st with
  | generate_ac | generate_fam_stats => [true]
  | reannotate_sex | compute_qc_mt => [true; true]
  | run_pc_relate | reannotate_relatedness => [true]
  | run_pca => [true; false]
  | assign_pops | calculate_clinvar | compute_related_samples_to_drop => [true]
  | generate_metadata => [false]
  | annotate_for_rf | train_rf | apply_rf => [true]
  | _ => []
  end.

(** The table a stage carries on with after a call site. *)
Definition carried_on {T} (c : site) (bound : bool) (args_overwrite : bool) (t : T)
    : Py.M (gmap string T) T := fun store =>
  match run_site c args_overwrite t store with
  | (Py.Ok returned, store') => (Py.Ok (if bound then returned else t), store')
  | (Py.Raise e, store') => (Py.Raise e, store')
  end.

(** The stages whose checkpoints are all of the resumable form. *)
Definition resumable_stages : list stage :=
  [generate_ac; generate_fam_stats; run_pc_relate; run_pca; assign_pops;
   compute_related_samples_to_drop; generate_metadata].

(** The stages whose checkpoints pass [overwrite=True]. *)
Definition overwriting_stages : list stage :=
  [reannotate_sex; compute_qc_mt; reannotate_relatedness; calculate_clinvar;
   annotate_for_rf].

(** The stages whose checkpoints pass [overwrite=args.overwrite] only. *)
Definition overwrite_on_request_stages : list stage := [train_rf; apply_rf].

End Checkpoints.

(** ** sample_qc/sample_qc.py *)
Module SampleQC.
Import Py.

(** *** Relatedness filters *)

(** Engine expressions evaluate, per row, to a value or to missing. *)
Definition hl_null {A} : option A := None.

Definition hl_is_defined {A} (x : option A) : option bool :=
  Some (bool_decide (is_Some x)).

(** [s.contains(x)] on a set expression: missing when the set is. *)
Definition contains (s : option (gset string)) (x : string) : option bool :=
  match s with
  | Some s => Some (bool_decide (x ∈ s))
  | None => None
  end.

(** [hl.if_else(c, t, e)]: a missing condition gives missing. *)
Definition hl_if_else {A} (c : option bool) (t e : option A) : option A :=
  match c with
  | Some true => t
  | Some false => e
  | None => None
  end.

(** [hl.case()] collects its [when] clauses in order; [.default(d)]
    folds them into nested [if_else], the first clause outermost. *)
Definition CaseBuilder (A : Type) : Type := list (option bool * option A).

Definition hl_case {A} : CaseBuilder A := [].

Definition when {A} (cb : CaseBuilder A) (c : option bool) (t : option A) : CaseBuilder A :=
  cb ++ [(c, t)].

Definition case_default {A} (cb : CaseBuilder A) (d : option A) : option A :=
  fold_right (fun ct acc => hl_if_else (fst ct) (snd ct) acc) d cb.

Definition get_relationship_filter_expr
    (hard_filtered_expr : option bool) (relationship : string)
    (relationship_set : option (gset string)) : option bool :=
  case_default
    (when
       (when hl_case hard_filtered_expr hl_null)
       (hl_is_defined relationship_set)
       (contains relationship_set relationship))
    (Some false).

(** *** Joining tables *)

(** Tables and the engine operations [join_tables] calls on them. *)
Class Tables : Type := {
  Table : Type;
  count : Table -> Z;
  key_by : Table -> string -> result Table;
  join : Table -> Table -> string -> result Table
}.

Inductive level : Type := INFO | WARNING.

Definition log : Type := list (level * string).

Definition logger_info (msg : string) : M log unit := fun lg =>
  (Ok tt, lg ++ [(INFO, msg)]).

Definition logger_warning (msg : string) : M log unit := fun lg =>
  (Ok tt, lg ++ [(WARNING, msg)]).

Definition mismatch_warning : level * string :=
  (WARNING, "Sample counts in left and right tables do not match!").

Section Join.
Context `{Tables}.

Definition compare_row_counts (ht1 ht2 : Table) : M log bool :=
  let r_count1 := count ht1 in
  let r_count2 := count ht2 in
  _ ← logger_info (pretty r_count1 +:+ " rows in left table; "
                   +:+ pretty r_count2 +:+ " rows in right table");
  mret (Z.eqb r_count1 r_count2).

Definition join_tables (left_ht : Table) (left_key : string)
    (right_ht : Table) (right_key : string) (join_type : string) : M log Table :=
  sample_count_match ← compare_row_counts left_ht right_ht;
  _ ← when_flag (negb sample_count_match)
        (logger_warning "Sample counts in left and right tables do not match!");
  lift (l ← key_by left_ht left_key;
        r ← key_by right_ht right_key;
        join l r join_type).

(** [left_ht.key_by(left_key).join(right_ht.key_by(right_key), how=join_type)]
    on its own. *)
Definition keyed_join (left_ht : Table) (left_key : string)
    (right_ht : Table) (right_key : string) (join_type : string) : result Table :=
  l ← key_by left_ht left_key;
  r ← key_by right_ht right_key;
  join l r join_type.

End Join.

End SampleQC.

(** ** resources/annotations.py *)
Module Annotations.

Definition ANNOTATIONS_ROOT : string :=
  "gs://gnomad/annotations/hail-0.2/ht/genomes_v3".

Record TableResource : Type := { path : string }.

Definition get_info (split : bool) : TableResource :=
  {| path := ANNOTATIONS_ROOT +:+ "/gnomad_genomes_v3_info"
             +:+ (if split then ".split" else EmptyString) +:+ ".ht" |}.

Definition last_END_position : TableResource :=
  {| path := ANNOTATIONS_ROOT +:+ "/gnomad_genomes_v3_last_END_positions.ht" |}.

Definition freq : TableResource :=
  {| path := ANNOTATIONS_ROOT +:+ "/gnomad_genomes_v3.frequencies.ht" |}.

Definition qual_hist : TableResource :=
  {| path := ANNOTATIONS_ROOT +:+ "/gnomad_genomes_v3.qual_hists.ht" |}.

Definition vep : TableResource :=
  {| path := ANNOTATIONS_ROOT +:+ "/gnomad_genomes_v3_vep.ht" |}.

(** A plain string, not a function. *)
Definition info_vcf_path : string :=
  ANNOTATIONS_ROOT +:+ "/gnomad_genomes_v3_info.vcf.bgz".

Definition qc_ac : TableResource :=
  {| path := ANNOTATIONS_ROOT +:+ "/gnomad_genomes_qc_ac.ht" |}.

Definition fam_stats : TableResource :=
  {| path := ANNOTATIONS_ROOT +:+ "/gnomad_genomes_qc_fam_stats.ht" |}.

End Annotations.

(** ** annotations/generate_qc_annotations.py *)
Module QcAnnotations.
Import Py Engine.

(** *** Allele counts of [compute_info] *)

(** A genotype call of ploidy at most two; its alleles are positions
    in the entry's local-allele array [LA]. *)
Inductive call : Type :=
| Call0
| Call1 (a : nat)
| Call2 (a b : nat).

Definition call_alleles (c : call) : list nat :=
  match c with
  | Call0 => []
  | Call1 a => [a]
  | Call2 a b => [a; b]
  end.

(** An entry of the sparse matrix table; every field may be missing. *)
Record entry : Type := {
  LA : option (list nat);
  LGT : option call;
  GQ : option Z;
  DP : option Z;
  LAD : option (list Z)
}.

Record row : Type := {
  locus : string;
  alleles : list string;
  entries : list entry
}.

(** [hl.int32(x)]: the sums of the engine are 64-bit integers, and
    their conversion to a 32-bit integer keeps the low 32 bits, in
    two's complement. *)
Definition hl_int32 (x : Z) : Z := (x + 2 ^ 31) mod 2 ^ 32 - 2 ^ 31.

(** [c.one_hot_alleles(a)]: for each position below [len(a)], how
    many alleles of the call are at that position. *)
Definition one_hot_alleles (c : call) (n : nat) : list Z :=
  (fun i => Z.of_nat (count_occ Nat.eq_dec (call_alleles c) i)) <$> seq 0 n.

(** [la.index(ai)]: first position of [ai], or missing. *)
Definition la_index (la : list nat) (ai : nat) : option nat :=
  fst <$> list_find (fun x => x = ai) la.

(** [mt.LA.contains(ai)] *)
Definition LA_contains (e : entry) (ai : nat) : option bool :=
  la ← LA e; Some (bool_decide (ai ∈ la)).

(** [mt.LGT.one_hot_alleles(mt.LA.map(lambda x: hl.str(x)))[mt.LA.index(ai)]] *)
Definition allele_dosage (e : entry) (ai : nat) : option Z :=
  lgt ← LGT e;
  la ← LA e;
  k ← la_index la ai;
  one_hot_alleles lgt (length la) !! k.

(** [i.get(k, d)] on a dictionary. *)
Definition get {K V} `{Countable K} (d : gmap K V) (k : K) (dflt : V) : V :=
  default dflt (d !! k).

(** What holds of a dictionary of grouped sums after [n] entries: no
    sum is negative and together they are at most two per entry. *)
Definition counted (d : gmap (option bool) Z) (n : Z) : Prop :=
  (forall k, 0 <= get d k 0)
  /\ get d (Some true) 0 + get d (Some false) 0 + get d None 0 <= 2 * n.

Section ComputeInfo.
(** [get_adj_expr] of the library module gnomad.utils.annotations: a
    boolean, or missing, from the entry's fields. *)
Variable get_adj_expr :
  option call -> option Z -> option Z -> option (list Z) -> option bool.

(** One entry folded into
    [hl.agg.filter(LA.contains(ai), hl.agg.group_by(adj, hl.agg.sum(dosage)))]:
    an entry that passes the filter opens or updates the group of its
    key, which may be the missing one; a missing dosage adds nothing. *)
Definition grp_ac_step (ai : nat) (d : gmap (option bool) Z) (e : entry)
    : gmap (option bool) Z :=
  match LA_contains e ai with
  | Some true =>
    let k := get_adj_expr (LGT e) (GQ e) (DP e) (LAD e) in
    <[ k := get d k 0 + default 0 (allele_dosage e ai) ]> d
  | _ => d
  end.

Definition alt_alleles_range_array (r : row) : list nat :=
  seq 1 (length (alleles r) - 1).

(** [hl.agg.array_agg(..., mt.alt_alleles_range_array)] over the
    entries of a row. *)
Definition grp_ac_expr (r : row) : list (gmap (option bool) Z) :=
  (fun ai => foldl (grp_ac_step ai) ∅ (entries r)) <$> alt_alleles_range_array r.

(** The two fields [compute_info] adds for the allele counts; the other
    info fields are aggregates of the engine library. *)
Record info : Type := {
  AC_raw : list Z;
  AC : list Z
}.

Definition info_expr (r : row) : info :=
  {| AC_raw := (fun i => hl_int32 (get i (Some true) 0 + get i (Some false) 0))
               <$> grp_ac_expr r;
     AC := (fun i => hl_int32 (get i (Some true) 0)) <$> grp_ac_expr r |}.

(** Rows of the info table: the key and the [info] struct, for the
    rows with more than one allele. *)
Definition compute_info (mt : list row) : list (string * list string * info) :=
  (fun r => (locus r, alleles r, info_expr r))
  <$> filter (fun r => (1 < length (alleles r))%nat) mt.

End ComputeInfo.

(** An instance of [get_adj_expr] for the examples: the thresholds on
    genotype quality and depth (the allele-balance test on
    heterozygous calls is left out). *)
Definition adj_thresholds (lgt : option call) (gq dp : option Z)
    (lad : option (list Z)) : option bool :=
  q ← gq; d ← dp; Some ((20 <=? q) && (10 <=? d)).

(** A homozygous call of the first alternate allele, of high quality. *)
Definition hom_alt : entry :=
  {| LA := Some [0; 1]%nat; LGT := Some (Call2 1 1);
     GQ := Some 99; DP := Some 30; LAD := Some [0; 30] |}.

(** A heterozygous call whose genotype quality is below the threshold. *)
Definition het_low_gq : entry :=
  {| LA := Some [0; 1]%nat; LGT := Some (Call2 0 1);
     GQ := Some 10; DP := Some 30; LAD := Some [14; 16] |}.

(** A heterozygous call without genotype quality. *)
Definition het_no_gq : entry :=
  {| LA := Some [0; 1]%nat; LGT := Some (Call2 0 1);
     GQ := None; DP := Some 30; LAD := Some [14; 16] |}.

(** A reference block: no alternate allele among the local alleles. *)
Definition ref_block : entry :=
  {| LA := Some [0]%nat; LGT := Some (Call2 0 0);
     GQ := Some 60; DP := Some 25; LAD := None |}.

Definition four_samples : row :=
  {| locus := "chr1:1000"; alleles := ["A"; "T"];
     entries := [hom_alt; het_low_gq; het_no_gq; ref_block] |}.

(** A bi-allelic site where each of [n] samples has that call. *)
Definition uniform_row (n : nat) : row :=
  {| locus := "chr1:1000"; alleles := ["A"; "T"]; entries := replicate n hom_alt |}.

(** *** [main] *)

Record args : Type := {
  compute_info_flag : bool;
  split_info : bool;
  export_info_vcf : bool;
  generate_allele_data : bool;
  generate_ac : bool;
  generate_fam_stats : bool;
  vep : bool;
  export_transmitted_singletons_vcf : bool;
  slack_channel : option string;
  overwrite : bool
}.

Section Main.
Context {Table MatrixTable : Type}.

(** What [main] calls outside the three lines of the VCF export: the
    conversion [ht_to_vcf_mt] of the engine library, and the other
    stages as a whole. *)
Record externals : Type := {
  ht_to_vcf_mt : Table -> MatrixTable;
  compute_info_stage : args -> M (@fs Table MatrixTable) unit;
  split_info_stage : args -> M (@fs Table MatrixTable) unit;
  generate_allele_data_stage : args -> M (@fs Table MatrixTable) unit;
  generate_ac_stage : args -> M (@fs Table MatrixTable) unit;
  generate_fam_stats_stage : args -> M (@fs Table MatrixTable) unit;
  export_transmitted_singletons_vcf_stage : M (@fs Table MatrixTable) unit;
  vep_stage : args -> M (@fs Table MatrixTable) unit
}.

Variable ext : externals.

(** [info_ht = get_info(split=False).ht()]
    [hl.export_vcf(ht_to_vcf_mt(info_ht), info_vcf_path())]
    The arguments are evaluated left to right, before the call. *)
Definition export_info_vcf_stage : M (@fs Table MatrixTable) unit :=
  info_ht ← read_table (Annotations.path (Annotations.get_info false));
  let mt := ht_to_vcf_mt ext info_ht in
  vcf_path ← lift (call0 (PyStr Annotations.info_vcf_path));
  export_vcf mt vcf_path.

Definition main (a : args) : M (@fs Table MatrixTable) unit :=
  _ ← when_flag (compute_info_flag a) (compute_info_stage ext a);
  _ ← when_flag (split_info a) (split_info_stage ext a);
  _ ← when_flag (export_info_vcf a) export_info_vcf_stage;
  _ ← when_flag (generate_allele_data a) (generate_allele_data_stage ext a);
  _ ← when_flag (generate_ac a) (generate_ac_stage ext a);
  _ ← when_flag (generate_fam_stats a) (generate_fam_stats_stage ext a);
  _ ← when_flag (export_transmitted_singletons_vcf a)
        (export_transmitted_singletons_vcf_stage ext);
  when_flag (vep a) (vep_stage ext a).

End Main.

End QcAnnotations.

(** ** create_release/make_var_annot_hists.py *)
Module VarAnnotHists.
Import Py Engine.

Definition LOG10_ANNOTATIONS : list string :=
  ["AS_VarDP"; "QUALapprox"; "AS_QUALapprox"].

Record args : Type := {
  first_pass : bool;
  slack_channel : option string;
  overwrite : bool
}.

(** Histogram ranges: metric name to (start, end, bins). *)
Definition hist_ranges : Type := gmap string (Z * Z * Z).

(** What a module-level name is bound to: a dictionary of histogram
    ranges, or any other object (module, function, class, logger,
    string, list). *)
Inductive binding : Type :=
| HistDict (d : hist_ranges)
| Other.

(** The names bound at module level when [main] is called: the
    imports, [logger], [LOG10_ANNOTATIONS], the two functions, and
    [parser] and [args] of the [__main__] block. *)
Definition module_globals : gmap string binding :=
  list_to_map
    (map (fun name => (name, Other))
       ["argparse"; "json"; "logging"; "hl"; "DataException";
        "create_frequency_bins_expr"; "get_annotations_hists"; "file_exists";
        "slack_notifications"; "slack_token"; "CURRENT_RELEASE";
        "annotation_hists_path"; "qual_hists_json_path"; "release_ht_path";
        "logger"; "LOG10_ANNOTATIONS"; "create_frequency_bins_expr_inbreeding";
        "main"; "parser"; "args"]).

Section Main.
Context {Table MatrixTable HistExprs : Type}.

Record state : Type := {
  globals : gmap string binding;
  files : @fs Table MatrixTable;
  stdout : list string
}.

Definition initial_state (files : @fs Table MatrixTable) : state :=
  {| globals := module_globals; files := files; stdout := [] |}.

(** Constants of [gnomad_qc.v3.resources] and functions of the engine
    library, imported by the script. *)
Record externals : Type := {
  release_ht_path : string;
  CURRENT_RELEASE : string;
  qual_hists_json_path : string -> string;
  get_annotations_hists : Table -> hist_ranges -> HistExprs;
  (* the struct of minima and maxima [ht.aggregate] returns, as printed *)
  aggregate_minmax : Table -> HistExprs -> string;
  (* [hl.eval(hl.json(ht.aggregate(...)))] *)
  aggregate_hists_json : Table -> HistExprs -> string
}.

Variable ext : externals.

(** Reading a name that is not local: a name the module does not bind
    (and that is no builtin) raises [NameError]. *)
Definition load_global (name : string) : M state binding := fun st =>
  match globals st !! name with
  | Some b => (Ok b, st)
  | None => (Raise (NameError name), st)
  end.

(** [d[k] = v] through a name that refers to the object the global
    [name] is bound to: the object itself is updated. *)
Definition setitem (name k : string) (v : Z * Z * Z) : M state unit := fun st =>
  match globals st !! name with
  | Some (HistDict d) =>
    (Ok tt, {| globals := <[ name := HistDict (<[ k := v ]> d) ]> (globals st);
               files := files st; stdout := stdout st |})
  | _ => (Raise (TypeError "object does not support item assignment"), st)
  end.

Definition as_hist_ranges (b : binding) : result hist_ranges :=
  match b with
  | HistDict d => Ok d
  | Other => Raise (TypeError "not a dictionary of histogram ranges")
  end.

Definition hl_read_table (path : string) : M state Table := fun st =>
  match read_table path (files st) with
  | (r, _) => (r, st)
  end.

Definition print (text : string) : M state unit := fun st =>
  (Ok tt, {| globals := globals st; files := files st;
             stdout := stdout st ++ [text] |}).

Definition hadoop_write (path text : string) : M state unit := fun st =>
  match write_text path text (files st) with
  | (r, files') => (r, {| globals := globals st; files := files';
                           stdout := stdout st |})
  end.

Definition main (a : args) : M state unit :=
  ht ← hl_read_table (release_ht_path ext);
  _ ← load_global "ANNOTATIONS_HISTS";
  _ ← setitem "ANNOTATIONS_HISTS" "MQ" (20, 60, 40);
  b ← load_global "ANNOTATIONS_HISTS";
  ranges ← lift (as_hist_ranges b);
  let hist_ranges_expr := get_annotations_hists ext ht ranges in
  if first_pass a then
    print (aggregate_minmax ext ht hist_ranges_expr)
  else
    hadoop_write (qual_hists_json_path ext (CURRENT_RELEASE ext))
                 (aggregate_hists_json ext ht hist_ranges_expr).

(** The [__main__] block after [parse_args]. *)
Definition script (a : args) : M state unit :=
  if truthy (slack_channel a) then
    _ ← load_global "try_slack"; main a
  else main a.

End Main.

End VarAnnotHists.

(** ** Engine expressions: three-valued logic and missing values *)
Module Hail.

(** [a & b]: false as soon as one side is false, missing otherwise
    when a side is missing. *)
Definition hl_and (a b : option bool) : option bool :=
  match a, b with
  | Some false, _ => Some false
  | _, Some false => Some false
  | Some true, Some true => Some true
  | _, _ => None
  end.

(** [a | b]: true as soon as one side is true. *)
Definition hl_or (a b : option bool) : option bool :=
  match a, b with
  | Some true, _ => Some true
  | _, Some true => Some true
  | Some false, Some false => Some false
  | _, _ => None
  end.

(** [~a] *)
Definition hl_not (a : option bool) : option bool := negb <$> a.

(** [hl.is_missing(x)] *)
Definition hl_is_missing {A} (x : option A) : option bool :=
  Some (bool_decide (x = None :> option A)).

(** [hl.or_else(x, d)] with a literal [d] *)
Definition hl_or_else {A} (x : option A) (d : A) : option A :=
  Some (default d x).

(** [hl.or_missing(c, x)]: [x] when [c] is true, missing otherwise. *)
Definition hl_or_missing {A} (c : option bool) (x : option A) : option A :=
  match c with
  | Some true => x
  | _ => None
  end.

(** [x == y] and [x != y]: missing when a side is missing. *)
Definition hl_eq (x y : option string) : option bool :=
  x' ← x; y' ← y; Some (bool_decide (x' = y')).

Definition hl_ne (x y : option string) : option bool :=
  x' ← x; y' ← y; Some (bool_decide (x' <> y')).

(** [hl.len(s) > 0] and [hl.len(s) == 0] on a set expression *)
Definition len_gt_0 (s : option (gset string)) : option bool :=
  (fun s => bool_decide (0 < size s)%nat) <$> s.

Definition len_eq_0 (s : option (gset string)) : option bool :=
  (fun s => bool_decide (size s = 0)%nat) <$> s.

(** The condition of [hl.agg.filter] and of [filter]: a row counts
    when the condition is true, not when it is false or missing. *)
Definition holds (c : option bool) : bool :=
  match c with
  | Some true => true
  | _ => false
  end.

End Hail.

(** ** variant_qc/random_forest.py: run data, labels and [main] *)
Module RandomForestRuns.
Import Py Hail RandomForest.

(** *** [get_run_data] *)

(** A row of the test results: the three fields of the struct in
    order, the label, the prediction and the number of sites. *)
Record test_row : Type := {
  rf_label : string;
  rf_prediction : string;
  n : Z
}.

Record input_args : Type := {
  transmitted_singletons : option bool;
  adj_arg : bool;
  vqsr_training_arg : bool;
  filter_centromere_telomere_arg : bool
}.

(** The dictionary [get_run_data] builds.  The two last keys are
    there only when test results are given; [test_accuracy] holds the
    operands of the division [tps / total], whose result is a float. *)
Record run_data (FI TI : Type) : Type := {
  run_input_args : input_args;
  features_importance : FI;
  test_intervals : TI;
  test_results : option (list test_row);
  test_accuracy : option (Z * Z)
}.
Arguments run_input_args {FI TI} r.
Arguments features_importance {FI TI} r.
Arguments test_intervals {FI TI} r.
Arguments test_results {FI TI} r.
Arguments test_accuracy {FI TI} r.

Inductive returns (A : Type) : Type :=
| Returns (a : A)
| ZeroDivisionError.
Arguments Returns {A} a.
Arguments ZeroDivisionError {A}.

(** The [for row in test_results] loop: [tps] and [total] after it. *)
Definition count_step (acc : Z * Z) (row : test_row) : Z * Z :=
  let '(tps, total) := acc in
  let tps := if String.eqb (rf_label row) (rf_prediction row)
             then tps + n row else tps in
  (tps, total + n row).

Definition count_results (rows : list test_row) : Z * Z :=
  foldl count_step (0, 0) rows.

Definition get_run_data {FI TI} (transmitted_singletons adj vqsr_training
    filter_centromere_telomere : bool) (test_intervals : TI)
    (features_importance : FI) (test_results : option (list test_row))
    : returns (run_data FI TI) :=
  let transmitted_singletons :=
    if vqsr_training then None else Some transmitted_singletons in
  let input_args :=
    {| transmitted_singletons := transmitted_singletons;
       adj_arg := adj;
       vqsr_training_arg := vqsr_training;
       filter_centromere_telomere_arg := filter_centromere_telomere |} in
  match test_results with
  | None =>
    Returns {| run_input_args := input_args;
               features_importance := features_importance;
               test_intervals := test_intervals;
               test_results := None;
               test_accuracy := None |}
  | Some rows =>
    let '(tps, total) := count_results rows in
    if total =? 0 then ZeroDivisionError
    else Returns {| run_input_args := input_args;
                    features_importance := features_importance;
                    test_intervals := test_intervals;
                    test_results := Some rows;
                    test_accuracy := Some (tps, total) |}
  end.

(** The call of [get_run_data] in [main]. *)
Definition main_get_run_data {FI TI} (a : args) (test_intervals : TI)
    (features_importance : FI) (test_results : option (list test_row))
    : returns (run_data FI TI) :=
  get_run_data (negb (no_transmitted_singletons a)) (adj a) (vqsr_training a)
    (filter_centromere_telomere a) test_intervals features_importance test_results.

(** *** The training labels of [train_rf] *)

(** The boolean columns of a site that the labels are built from. *)
Record site_columns : Type := {
  omni : option bool;
  mills : option bool;
  transmitted_singleton : option bool;
  fail_hard_filters : option bool;
  vqsr_POSITIVE_TRAIN_SITE : option bool;
  vqsr_NEGATIVE_TRAIN_SITE : option bool
}.

Definition tp_expr (a : args) (ht : site_columns) : option bool :=
  if vqsr_training a then vqsr_POSITIVE_TRAIN_SITE ht
  else
    let tp_expr := hl_or (omni ht) (mills ht) in
    if negb (no_transmitted_singletons a)
    then hl_or tp_expr (transmitted_singleton ht)
    else tp_expr.

Definition fp_expr (a : args) (ht : site_columns) : option bool :=
  if vqsr_training a then vqsr_NEGATIVE_TRAIN_SITE ht
  else fail_hard_filters ht.

(** *** The stages of [main] *)

(** What [main] asks of the engine, in order, when no stage raises.
    [run_hash] is [None] for Python's [None]. *)
Inductive stage_call : Type :=
| ListRuns
| CreateRfHt (impute_features_by_variant_type : bool) (group : string)
| TrainRf (run_hash : string)
| RegisterRun (run_hash : string)
| SaveModel (run_hash : string)
| ApplyRf (run_hash : option string).

(** [generated] is the hash the [while] loop ends with. *)
Definition main_calls (a : args) (generated : string) : list stage_call :=
  (if list_rf_runs a then [ListRuns] else [])
  ++ (if annotate_for_rf a
      then [CreateRfHt (negb (impute_features_no_variant_type a))
                       (if adj a then "adj" else "raw")]
      else [])
  ++ (if train_rf_flag a
      then [TrainRf generated; RegisterRun generated; SaveModel generated]
      else [])
  ++ (let run_hash := if train_rf_flag a then Some generated else run_hash a in
      if apply_rf a then [ApplyRf run_hash] else []).

End RandomForestRuns.

(** ** sample_qc/sample_qc.py: relatedness sets, metadata, rankings *)
Module SampleQCTables.
Import Py Hail SampleQC.

(** *** [get_relatedness_set_ht] *)

(** A row of the relatedness table, keyed by the pair of samples
    [(i.s, j.s)]. *)
Record pair : Type := {
  i_s : string;
  j_s : string;
  relationship : option string
}.

(** [hl.agg.collect_as_set(x)] adds the values that are not missing. *)
Definition collect_as_set (x : option string) (acc : gset string) : gset string :=
  match x with
  | Some v => {[ v ]} ∪ acc
  | None => acc
  end.

(** [ht.group_by(ht.s).aggregate(relationships=collect_as_set(...))] *)
Definition group_relationships (rows : list (string * option string))
    : gmap string (gset string) :=
  foldr (fun row acc =>
           <[ fst row := collect_as_set (snd row) (default ∅ (acc !! fst row)) ]> acc)
        ∅ rows.

(** [UNRELATED] is a constant of the library module
    gnomad.sample_qc.relatedness. *)
Definition get_relatedness_set_ht (UNRELATED : string) (relatedness_ht : list pair)
    : gmap string (gset string) :=
  let relatedness_ht :=
    filter (fun p => holds (hl_ne (relationship p) (Some UNRELATED)) = true)
           relatedness_ht in
  let union :=
    ((fun p => (i_s p, relationship p)) <$> relatedness_ht)
    ++ ((fun p => (j_s p, relationship p)) <$> relatedness_ht) in
  group_relationships union.

(** *** The sample filters of [generate_metadata] *)

(** The columns of the joined table the filters are built from; each
    is missing for a sample the joined table does not have. *)
Record joined_sample : Type := {
  s : string;
  hard_filters : option (gset string);
  qc_metrics_filters : option (gset string);
  releasable : option bool;
  exclude : option bool
}.

(** One boolean per hard filter [v] found in the hard-filter table. *)
Definition hard_filter_flag (v : string) (r : joined_sample) : option bool :=
  hl_if_else (hl_is_defined (hard_filters r))
             (contains (hard_filters r) v)
             (Some false).

Definition hard_filtered (r : joined_sample) : option bool :=
  hl_if_else (hl_and (hl_is_defined (hard_filters r)) (len_gt_0 (hard_filters r)))
             (Some true)
             (Some false).

(** [to_drop.annotate(relationships=relatedness_ht[to_drop.s].relationships)]
    looked up at a sample: [to_drop[key].relationships]. *)
Definition dropped_relationships (relatedness_ht : gmap string (gset string))
    (to_drop : gset string) (sample : string) : option (gset string) :=
  if bool_decide (sample ∈ to_drop) then relatedness_ht !! sample else None.

(** [release_related] and [all_samples_related] *)
Definition related_flag (to_drop : gset string) (r : joined_sample) : option bool :=
  hl_if_else (hard_filtered r) hl_null (Some (bool_decide (s r ∈ to_drop))).

(** [release_duplicate], [release_parent_child], [release_sibling] and
    their [all_samples_] counterparts, for the relationship they test. *)
Definition relationship_flag (relatedness_ht : gmap string (gset string))
    (to_drop : gset string) (relationship : string) (r : joined_sample)
    : option bool :=
  get_relationship_filter_expr (hard_filtered r) relationship
    (dropped_relationships relatedness_ht to_drop (s r)).

Definition high_quality (r : joined_sample) : option bool :=
  hl_and (hl_not (hard_filtered r)) (len_eq_0 (qc_metrics_filters r)).

Definition release (release_to_drop : gset string) (r : joined_sample) : option bool :=
  hl_and
    (hl_and (hl_and (releasable r) (high_quality r)) (hl_not (exclude r)))
    (hl_not (related_flag release_to_drop r)).

(** *** [compute_sample_rankings] *)

Record project_row (D : Type) : Type := {
  sample : string;
  project_releasable : option bool;
  project_exclude : option bool;
  chr20_mean_dp : option D;
  sample_hard_filters : option (gset string);
  sample_qc_metrics_filters : option (gset string)
}.
Arguments sample {D} p.
Arguments project_releasable {D} p.
Arguments project_exclude {D} p.
Arguments chr20_mean_dp {D} p.
Arguments sample_hard_filters {D} p.
Arguments sample_qc_metrics_filters {D} p.

Section Rankings.
Context {D : Type}.

Definition filtered (use_qc_metrics_filters : bool) (r : project_row D) : option bool :=
  let filtered := hl_or_else (len_gt_0 (sample_hard_filters r)) false in
  if use_qc_metrics_filters then
    hl_if_else filtered (Some true)
               (hl_or_else (len_gt_0 (sample_qc_metrics_filters r)) false)
  else filtered.

(** [exclude], after
    [annotate(exclude=hl.if_else(hl.is_missing(exclude), False, exclude))] *)
Definition exclude_or_false (r : project_row D) : option bool :=
  hl_if_else (hl_is_missing (project_exclude r)) (Some false) (project_exclude r).

(** The second sort key, [releasable & ~exclude]. *)
Definition releasable_not_excluded (r : project_row D) : option bool :=
  hl_and (project_releasable r) (hl_not (exclude_or_false r)).

(** The order of one sort field, from the order [leb] of its values:
    a missing value comes after every other one, in both directions. *)
Definition sort_field {A} (leb : A -> A -> bool) (x y : option A) : bool :=
  match x, y with
  | _, None => true
  | None, Some _ => false
  | Some a, Some b => leb a b
  end.

(** A field as it is, and under [hl.desc], which turns round the
    order of the values that are not missing. *)
Definition asc {A} (leb : A -> A -> bool) : option A -> option A -> bool :=
  sort_field leb.

Definition desc {A} (leb : A -> A -> bool) : option A -> option A -> bool :=
  sort_field (fun a b => leb b a).

(** Sorting by one field and, where two rows tie on it, by the
    fields after it. *)
Definition then_by {A} (first rest : A -> A -> bool) (x y : A) : bool :=
  if first x y then (if first y x then rest x y else true) else false.

(** The order of booleans: [False] before [True]. *)
Definition bool_leb (a b : bool) : bool := implb a b.

(** The order of the coverage values, which are floats. *)
Variable dp_leb : D -> D -> bool.

(** The three fields of
    [order_by(filtered, hl.desc(releasable & ~exclude), hl.desc(chr20_mean_dp))] *)
Definition key_leb (use_qc_metrics_filters : bool) (x y : project_row D) : bool :=
  then_by
    (fun x y => asc bool_leb (filtered use_qc_metrics_filters x)
                             (filtered use_qc_metrics_filters y))
    (then_by
       (fun x y => desc bool_leb (releasable_not_excluded x)
                                 (releasable_not_excluded y))
       (fun x y => desc dp_leb (chr20_mean_dp x) (chr20_mean_dp y)))
    x y.

Definition key_le (use_qc_metrics_filters : bool) : relation (project_row D) :=
  fun x y => key_leb use_qc_metrics_filters x y = true.

#[global] Instance key_le_dec (use_qc_metrics_filters : bool) (x y : project_row D) :
  Decision (key_le use_qc_metrics_filters x y).
Proof. unfold key_le. apply _. Defined.




End Rankings.

(** *** The re-labelling loop of [assign_pops] *)

Record scores_row : Type := {
  scores_s : string;
  training_pop : option string;
  training_pop_all : option string
}.

(** A row of the table [assign_population_pcs] returns: the key, the
    known column it was given and the population it assigns. *)
Record pop_row : Type := {
  pop_s : string;
  pop_training_pop : option string;
  pop : option string
}.

(** [pop_ht[key]]: the row with that key, if any. *)
Definition index_by_key (pop_ht : list pop_row) (key : string) : option pop_row :=
  snd <$> list_find (fun r => pop_s r = key) pop_ht.

(** [pop_ht.aggregate(hl.agg.count_where(pop_ht.training_pop != pop_ht.pop))] *)
Definition n_mislabeled_samples (pop_ht : list pop_row) : Z :=
  Z.of_nat (length (filter (fun r => holds (hl_ne (pop_training_pop r) (pop r)) = true)
                           pop_ht)).

(** The [annotate] of the loop body, on one row of the scores table. *)
Definition relabel (pop_ht : list pop_row) (r : scores_row) : scores_row :=
  let pop_ht_training_pop := index_by_key pop_ht (scores_s r) ≫= pop_training_pop in
  let pop_ht_pop := index_by_key pop_ht (scores_s r) ≫= pop in
  {| scores_s := scores_s r;
     training_pop :=
       hl_or_missing (hl_eq pop_ht_training_pop pop_ht_pop) (training_pop r);
     training_pop_all :=
       hl_or_missing
         (hl_or (hl_is_missing pop_ht_training_pop)
                (hl_eq pop_ht_training_pop pop_ht_pop))
         (training_pop_all r) |}.

Section AssignPops.
(** [assign_population_pcs] of the library, on its [n]-th call. *)
Variable assign_population_pcs : nat -> list scores_row -> list pop_row.
Variable max_mislabeled_training_samples : Z.

(** The [while] loop; [calls] counts the calls of the classifier so
    far, and [fuel] bounds the number of iterations. *)
Fixpoint relabel_loop (fuel : nat) (calls : nat) (known_pop_removal_iter : nat)
    (pop_pca_scores_ht : list scores_row) (pop_ht : list pop_row)
    : option (list scores_row * list pop_row * nat) :=
  if max_mislabeled_training_samples <? n_mislabeled_samples pop_ht then
    match fuel with
    | O => None
    | S fuel' =>
      let pop_pca_scores_ht := relabel pop_ht <$> pop_pca_scores_ht in
      relabel_loop fuel' (S calls) (S known_pop_removal_iter) pop_pca_scores_ht
                   (assign_population_pcs calls pop_pca_scores_ht)
    end
  else Some (pop_pca_scores_ht, pop_ht, known_pop_removal_iter).

(** [assign_pops] from the first call of the classifier on: the final
    scores table, the final population table and
    [known_pop_removal_iterations]. *)
Definition assign_pops (fuel : nat) (pop_pca_scores_ht : list scores_row)
    : option (list scores_row * list pop_row * nat) :=
  relabel_loop fuel 1 1 pop_pca_scores_ht (assign_population_pcs 0 pop_pca_scores_ht).

End AssignPops.

(** The table the classifier returns has the rows of the table it is
    given, in order, with their key and known column. *)
Definition keeps_known_column
    (assign_population_pcs : nat -> list scores_row -> list pop_row) : Prop :=
  forall calls rows,
    (fun r => (pop_s r, pop_training_pop r)) <$> assign_population_pcs calls rows
    = (fun r => (scores_s r, training_pop r)) <$> rows.

(** The number of samples that still have a training label. *)
Definition n_training (rows : list scores_row) : nat :=
  length (filter (fun r => is_Some (training_pop r)) rows).

(** A row of the scores table and the row of the population table
    found under its key, [pop_ht[pop_pca_scores_ht.key]]. *)
Definition found_in (pop_ht : list pop_row) (r : scores_row) (pr : pop_row) : Prop :=
  index_by_key pop_ht (scores_s r) = Some pr
  /\ pop_training_pop pr = training_pop r.

End SampleQCTables.

(** ** annotations/generate_qc_annotations.py: [generate_ac] *)
Module QcAlleleCounts.
Import Py Hail QcAnnotations.

(** The sample annotations [generate_ac] reads from [mt.meta]. *)
Record sample_meta : Type := {
  meta_high_quality : option bool;
  meta_release : option bool;
  all_samples_related : option bool
}.

(** An entry with the annotations of its column, after [annotate_adj]. *)
Record gt_entry : Type := {
  meta : sample_meta;
  GT : option call;
  adj : option bool
}.

(** [GT.n_alt_alleles()]: the alleles of the call other than the
    reference. *)
Definition n_alt_alleles (c : call) : Z :=
  Z.of_nat (length (filter (fun a => a <> 0%nat) (call_alleles c))).

(** [hl.agg.filter(cond, hl.agg.sum(mt.GT.n_alt_alleles()))] *)
Definition agg_filter_sum (cond : gt_entry -> option bool) (entries : list gt_entry) : Z :=
  foldr (fun e acc =>
           (if holds (cond e) then default 0 (n_alt_alleles <$> GT e) else 0) + acc)
        0 entries.

Record ac_row : Type := {
  ac_qc_samples_raw : Z;
  ac_qc_samples_unrelated_raw : Z;
  ac_release_samples_raw : Z;
  ac_qc_samples_adj : Z;
  ac_qc_samples_unrelated_adj : Z;
  ac_release_samples_adj : Z
}.

(** The row annotations of [generate_ac] at one site, from the
    entries of all samples. *)
Definition generate_ac_row (entries : list gt_entry) : ac_row :=
  let entries := filter (fun e => holds (meta_high_quality (meta e)) = true) entries in
  {| ac_qc_samples_raw := agg_filter_sum (fun _ => Some true) entries;
     ac_qc_samples_unrelated_raw :=
       agg_filter_sum (fun e => hl_not (all_samples_related (meta e))) entries;
     ac_release_samples_raw :=
       agg_filter_sum (fun e => meta_release (meta e)) entries;
     ac_qc_samples_adj := agg_filter_sum (fun e => adj e) entries;
     ac_qc_samples_unrelated_adj :=
       agg_filter_sum (fun e => hl_and (hl_not (all_samples_related (meta e))) (adj e))
                      entries;
     ac_release_samples_adj :=
       agg_filter_sum (fun e => hl_and (meta_release (meta e)) (adj e)) entries |}.

(** [generate_ac]: the sites with more than one allele, each with
    its counts. *)
Definition generate_ac (mt : list (string * list string * list gt_entry))
    : list (string * list string * ac_row) :=
  (fun r => (r.1.1, r.1.2, generate_ac_row r.2))
  <$> filter (fun r => (1 < length r.1.2)%nat) mt.

(** The columns [create_rf_ht] of the random-forest script derives
    from these counts, for [group] raw or adj. *)
Definition ac_qc_samples (group_adj : bool) (r : ac_row) : Z :=
  if group_adj then ac_qc_samples_adj r else ac_qc_samples_raw r.

(** [ht.filter(ht[f"ac_qc_samples_{group}"] > 0)] *)
Definition rf_keeps (group_adj : bool) (r : ac_row) : bool :=
  0 <? ac_qc_samples group_adj r.

(** [singleton], [ac_raw] and [ac] of the table for the random forest *)
Definition rf_singleton (r : ac_row) : bool := ac_release_samples_raw r =? 1.
Definition rf_ac_raw (r : ac_row) : Z := ac_qc_samples_raw r.
Definition rf_ac (r : ac_row) : Z := ac_release_samples_adj r.

End QcAlleleCounts.

(** ** Sums *)
Module Sums.

Definition Zsum (l : list Z) : Z := foldr Z.add 0 l.

End Sums.

(** ** The grouped sums of [compute_info], entry by entry *)
Module InfoSums.
Import QcAnnotations Sums.

Section Dosage.
Variable get_adj_expr :
  option call -> option Z -> option Z -> option (list Z) -> option bool.

(** What one entry adds to the group [k] of the alternate allele
    [ai]: its dosage of the allele when the allele is among its local
    alleles and its adj status is [k], and nothing otherwise. *)
Definition adj_dosage (k : option bool) (ai : nat) (e : entry) : Z :=
  if bool_decide (LA_contains e ai = Some true
                  /\ get_adj_expr (LGT e) (GQ e) (DP e) (LAD e) = k)
  then default 0 (allele_dosage e ai) else 0.

Definition group_sum (k : option bool) (ai : nat) (es : list entry) : Z :=
  Zsum (adj_dosage k ai <$> es).

End Dosage.

End InfoSums.

(** ** The metadata of sample_qc.py as the [mt.meta] of [generate_ac] *)
Module MetaColumns.
Import Hail QcAnnotations SampleQCTables QcAlleleCounts.

Section Meta.
(** The samples of the two tables of related samples to drop. *)
Variable related_samples_to_drop release_related_samples_to_drop : gset string.

(** The three columns [generate_ac] reads from [mt.meta], as
    [generate_metadata] annotates them; all are missing for a sample
    the metadata table does not have. *)
Definition sample_meta_of (r : option joined_sample) : sample_meta :=
  {| meta_high_quality := r ≫= high_quality;
     meta_release := r ≫= release release_related_samples_to_drop;
     all_samples_related := r ≫= related_flag related_samples_to_drop |}.

(** The entry of a sample at one site: its metadata, its call and
    its adj status. *)
Definition entry_of (x : option joined_sample * option call * option bool) : gt_entry :=
  {| meta := sample_meta_of x.1.1; GT := x.1.2; adj := x.2 |}.

End Meta.

End MetaColumns.

(** ** Inputs for the examples *)
Module Examples.
Import Py Engine.

(** Ideal arithmetic on the reals as an interpretation of the
    float64 operations. *)
#[global] Instance real_float64 : RandomForest.Float64 R := {|
  RandomForest.hl_float64 := IZR;
  RandomForest.fadd := Rplus;
  RandomForest.fsub := Rminus;
  RandomForest.fmul := Rmult;
  RandomForest.fdiv := Rdiv;
  RandomForest.hl_min := Rmin;
  RandomForest.hl_max := Rmax;
  RandomForest.hl_log := ln
|}.

(** The flags [--train_rf --run_hash=], the hash given with an empty
    value. *)
Definition train_with_empty_hash : RandomForest.args :=
  {| RandomForest.slack_channel := None;
     RandomForest.overwrite := false;
     RandomForest.run_hash := Some EmptyString;
     RandomForest.list_rf_runs := false;
     RandomForest.annotate_for_rf := false;
     RandomForest.train_rf_flag := true;
     RandomForest.apply_rf := false;
     RandomForest.finalize := false;
     RandomForest.impute_features_no_variant_type := false;
     RandomForest.adj := false;
     RandomForest.vqsr_training := false;
     RandomForest.no_transmitted_singletons := false;
     RandomForest.no_inbreeding_coeff := false;
     RandomForest.filter_centromere_telomere := false |}.

(** Two calls of [uuid.uuid4()]. *)
Definition two_uuids (n : nat) : string :=
  match n with
  | O => "1b4e28ba-2fa1-11d2-883f-0016d3cca427"
  | _ => "6fa459ea-ee8a-3ca4-894e-db77e160355e"
  end.

(** A run-hash file with one earlier run, under the first of them. *)
Definition one_run : option (gmap string string) :=
  Some {[ "1b4e28ba" := "run data of 1b4e28ba" ]}.

(** Some values for the paths of [gnomad_qc.v3.resources]. *)
Definition resource_paths : Checkpoints.resources :=
  {| Checkpoints.pc_relate_pca_scores_path := "gs://gnomad/sample_qc/pc_relate_pca_scores.ht";
     Checkpoints.pca_samples_rankings_path := "gs://gnomad/sample_qc/pca_samples_rankings.ht";
     Checkpoints.pca_related_samples_to_drop_path := "gs://gnomad/sample_qc/pca_related_samples_to_drop.ht";
     Checkpoints.pop_path := "gs://gnomad/sample_qc/pop.ht";
     Checkpoints.release_samples_rankings_path := "gs://gnomad/sample_qc/release_samples_rankings.ht";
     Checkpoints.meta_path := "gs://gnomad/metadata/meta.ht";
     Checkpoints.get_checkpoint_path := fun name => "gs://gnomad-tmp/" +:+ name +:+ ".ht";
     Checkpoints.get_rf_path := fun data run_hash =>
       "gs://gnomad/variant_qc/rf/" +:+ run_hash +:+ "/" +:+ data +:+ ".ht" |}.

(** An engine whose tables carry no data and whose other stages do
    nothing. *)
Definition idle_stages : @QcAnnotations.externals unit unit :=
  {| QcAnnotations.ht_to_vcf_mt := fun t => t;
     QcAnnotations.compute_info_stage := fun _ => mret tt;
     QcAnnotations.split_info_stage := fun _ => mret tt;
     QcAnnotations.generate_allele_data_stage := fun _ => mret tt;
     QcAnnotations.generate_ac_stage := fun _ => mret tt;
     QcAnnotations.generate_fam_stats_stage := fun _ => mret tt;
     QcAnnotations.export_transmitted_singletons_vcf_stage := mret tt;
     QcAnnotations.vep_stage := fun _ => mret tt |}.

(** The flags [--export_info_vcf]. *)
Definition only_export_info_vcf : QcAnnotations.args :=
  {| QcAnnotations.compute_info_flag := false;
     QcAnnotations.split_info := false;
     QcAnnotations.export_info_vcf := true;
     QcAnnotations.generate_allele_data := false;
     QcAnnotations.generate_ac := false;
     QcAnnotations.generate_fam_stats := false;
     QcAnnotations.vep := false;
     QcAnnotations.export_transmitted_singletons_vcf := false;
     QcAnnotations.slack_channel := None;
     QcAnnotations.overwrite := false |}.

(** Storage that holds the unsplit info table. *)
Definition info_table_only : @fs unit unit :=
  {[ Annotations.path (Annotations.get_info false) := TableFile tt ]}.

End Examples.

(** ** Inputs for the further properties *)
Module Inputs.
Import Py Hail.

(** The test results of a run: 170 of 200 sites are predicted as
    labelled. *)
Definition test_rows : list RandomForestRuns.test_row :=
  [ {| RandomForestRuns.rf_label := "TP"; RandomForestRuns.rf_prediction := "TP";
       RandomForestRuns.n := 90 |};
    {| RandomForestRuns.rf_label := "TP"; RandomForestRuns.rf_prediction := "FP";
       RandomForestRuns.n := 10 |};
    {| RandomForestRuns.rf_label := "FP"; RandomForestRuns.rf_prediction := "FP";
       RandomForestRuns.n := 80 |};
    {| RandomForestRuns.rf_label := "FP"; RandomForestRuns.rf_prediction := "TP";
       RandomForestRuns.n := 20 |} ].

(** The flags [--apply_rf --run_hash 6fa459ea]. *)
Definition apply_with_hash : RandomForest.args :=
  {| RandomForest.slack_channel := None;
     RandomForest.overwrite := false;
     RandomForest.run_hash := Some "6fa459ea";
     RandomForest.list_rf_runs := false;
     RandomForest.annotate_for_rf := false;
     RandomForest.train_rf_flag := false;
     RandomForest.apply_rf := true;
     RandomForest.finalize := false;
     RandomForest.impute_features_no_variant_type := false;
     RandomForest.adj := false;
     RandomForest.vqsr_training := false;
     RandomForest.no_transmitted_singletons := false;
     RandomForest.no_inbreeding_coeff := false;
     RandomForest.filter_centromere_telomere := false |}.

(** A heap with the feature list and one more list object. *)
Definition two_lists : gmap nat (list string) :=
  <[ 1%nat := ["hapmap"; "omni"] ]> RandomForest.initial_heap.

(** A model that is the list of the features it was trained on. *)
Definition features_as_model (a : RandomForest.args) (features : list string)
    : result (list string) :=
  Ok features.

(** Storage where the temporary table of the allele counts and the
    training table of the run 6fa459ea are persisted. *)
Definition persisted_tables : gmap string string :=
  {[ "gs://gnomad-tmp/ac_tmp.ht" := "allele counts of an earlier run";
     "gs://gnomad/variant_qc/rf/6fa459ea/training.ht" := "training table" ]}.



(** Three samples with scores: two with a known population, one
    without. *)
Definition three_scores : list SampleQCTables.scores_row :=
  [ {| SampleQCTables.scores_s := "NA12878";
       SampleQCTables.training_pop := Some "nfe";
       SampleQCTables.training_pop_all := Some "nfe" |};
    {| SampleQCTables.scores_s := "NA19240";
       SampleQCTables.training_pop := Some "afr";
       SampleQCTables.training_pop_all := Some "afr" |};
    {| SampleQCTables.scores_s := "HG00096";
       SampleQCTables.training_pop := None;
       SampleQCTables.training_pop_all := None |} ].

(** A classifier that assigns every sample to one population. *)
Definition all_nfe (call : nat) (rows : list SampleQCTables.scores_row)
    : list SampleQCTables.pop_row :=
  (fun r => {| SampleQCTables.pop_s := SampleQCTables.scores_s r;
               SampleQCTables.pop_training_pop := SampleQCTables.training_pop r;
               SampleQCTables.pop := Some "nfe" |}) <$> rows.

(** The four samples of the example row, in reverse order. *)
Definition four_samples_reversed : QcAnnotations.row :=
  {| QcAnnotations.locus := "chr1:1000";
     QcAnnotations.alleles := ["A"; "T"];
     QcAnnotations.entries :=
       [QcAnnotations.ref_block; QcAnnotations.het_no_gq;
        QcAnnotations.het_low_gq; QcAnnotations.hom_alt] |}.

End Inputs.

(** * Properties *)

Import Py.

(** ** Command line validation of the random-forest script *)
Section FlagValidation.
Import RandomForest.

Lemma truthy_spec (o : option string) :
  truthy o = true <-> exists s, o = Some s /\ s <> EmptyString.
Proof.
  destruct o as [s|]; simpl.
  - rewrite negb_true_iff. split.
    + intros H. exists s. split; [reflexivity|].
      intros ->. discriminate.
    + intros (s' & [= <-] & Hne).
      destruct (String.eqb_spec s EmptyString); congruence.
  - split; [discriminate | intros (s & [=] & _)].
Qed.

Lemma script_cases (a : args) :
  script a =
    if negb (truthy (run_hash a)) && negb (train_rf_flag a) && apply_rf a
    then SysExit run_hash_required_msg
    else if truthy (run_hash a) && train_rf_flag a
    then SysExit mutually_exclusive_msg
    else RunMain (truthy (slack_channel a)) a.
Proof.
  unfold script.
  repeat match goal with |- context [if ?b then _ else _] => destruct b end;
    reflexivity.
Qed.

(** C5, as stated, fails: with [--train_rf --run_hash=] the option
    [--run_hash] is given, with an empty value, together with
    [--train_rf], and the script does not exit but calls [main]. *)
Lemma empty_run_hash_is_not_rejected :
  script Examples.train_with_empty_hash = RunMain false Examples.train_with_empty_hash
  /\ ~ (exits (script Examples.train_with_empty_hash) <->
        (apply_rf Examples.train_with_empty_hash = true
         /\ run_hash Examples.train_with_empty_hash = None
         /\ train_rf_flag Examples.train_with_empty_hash = false)
        \/ (is_Some (run_hash Examples.train_with_empty_hash)
            /\ train_rf_flag Examples.train_with_empty_hash = true)).
Proof.
  split; [reflexivity|].
  intros [_ Hexit]. apply Hexit. right. split; [by eexists | reflexivity].
Qed.

(** C5, amended: the script exits with an error message exactly when
    [--apply_rf] comes with neither a non-empty [--run_hash] value nor
    [--train_rf], or a non-empty [--run_hash] value comes together
    with [--train_rf]; every other combination calls [main] on the
    parsed arguments. *)
Theorem script_exits_iff_invalid_flags (a : args) :
  let given := exists s, run_hash a = Some s /\ s <> EmptyString in
  let invalid :=
    (apply_rf a = true /\ ~ given /\ train_rf_flag a = false)
    \/ (given /\ train_rf_flag a = true) in
  (exits (script a) <-> invalid)
  /\ ((exists with_slack, script a = RunMain with_slack a) <-> ~ invalid).
Proof.
  cbv zeta. rewrite <- truthy_spec, script_cases.
  destruct (truthy (run_hash a)), (train_rf_flag a), (apply_rf a); simpl;
    (split; split;
     [ intros HH; try (destruct HH; fail); intuition congruence
     | intros HH; try exact I; intuition (try congruence); try (eexists; reflexivity)
     | intros HH; try (destruct HH as [? ?]; discriminate); intuition congruence
     | intros HH; try (eexists; reflexivity); exfalso; apply HH; intuition congruence ]).
Qed.

End FlagValidation.

(** ** Relatedness filters and table joins of the sample QC script *)
Section SampleQCProperties.
Import SampleQC.

(** C10: a hard-filtered sample gets missing whatever the relationship
    set is; a sample that is not hard-filtered gets whether the set
    contains the relationship when the set is defined, and [False]
    when it is missing. *)
Theorem get_relationship_filter_expr_spec :
  (forall relationship relationship_set,
     get_relationship_filter_expr (Some true) relationship relationship_set = None)
  /\ (forall relationship (s : gset string),
        get_relationship_filter_expr (Some false) relationship (Some s)
        = Some (bool_decide (relationship ∈ s)))
  /\ (forall relationship,
        get_relationship_filter_expr (Some false) relationship None = Some false).
Proof.
  repeat split; intros; reflexivity.
Qed.

(** When the hard-filter flag itself is missing, so is the result. *)
Example get_relationship_filter_expr_missing_flag :
  get_relationship_filter_expr None "siblings" (Some {[ "siblings" ]}) = None.
Proof. reflexivity. Qed.

Example get_relationship_filter_expr_sibling :
  get_relationship_filter_expr (Some false) "siblings"
    (Some {[ "siblings"; "parent-child" ]}) = Some true
  /\ get_relationship_filter_expr (Some false) "duplicate/twins"
       (Some {[ "siblings"; "parent-child" ]}) = Some false.
Proof. split; vm_compute; reflexivity. Qed.

Context `{Tables}.

Lemma compare_row_counts_run (ht1 ht2 : Table) (lg : log) :
  exists msg,
    compare_row_counts ht1 ht2 lg
    = (Ok (Z.eqb (count ht1) (count ht2)), lg ++ [(INFO, msg)]).
Proof. eexists. reflexivity. Qed.

(** C4: the result of [join_tables] is the join of the two keyed
    tables, whatever the row counts are; the log grows by entries
    among which the mismatch warning (and any warning at all) occurs
    exactly when the row counts differ. *)
Theorem join_tables_spec (left_ht : Table) (left_key : string)
    (right_ht : Table) (right_key join_type : string) (lg : log) :
  fst (join_tables left_ht left_key right_ht right_key join_type lg)
  = keyed_join left_ht left_key right_ht right_key join_type
  /\ exists emitted,
       snd (join_tables left_ht left_key right_ht right_key join_type lg)
       = lg ++ emitted
       /\ (mismatch_warning ∈ emitted <-> count left_ht <> count right_ht)
       /\ (forall msg, (WARNING, msg) ∈ emitted <->
                       msg = snd mismatch_warning /\ count left_ht <> count right_ht).
Proof.
  unfold join_tables, mbind, M_bind.
  destruct (compare_row_counts_run left_ht right_ht lg) as [info ->].
  destruct (Z.eqb_spec (count left_ht) (count right_ht)) as [He|Hne]; simpl.
  - unfold lift, keyed_join. split; [reflexivity|].
    exists [(INFO, info)]. split; [reflexivity|].
    split; [|intros msg]; rewrite list_elem_of_singleton; unfold mismatch_warning;
      split; try congruence; intros []; congruence.
  - unfold logger_warning, lift, keyed_join. split; [reflexivity|].
    exists [(INFO, info); mismatch_warning]. split; [by rewrite <- app_assoc|].
    split; [split; [done | intros _; set_solver]|].
    intros msg. unfold mismatch_warning. simpl. split.
    + intros Hin. apply elem_of_cons in Hin as [[=]|Hin].
      apply list_elem_of_singleton in Hin as [= ->]. done.
    + intros [-> _]. set_solver.
Qed.

End SampleQCProperties.

(** ** Run hashes of the random-forest script *)
Section RunHash.
Import RandomForest.
Context {V : Type}.
Implicit Types rf_runs : gmap string V.

(** Whenever the loop ends, the hash it ends with is not a key. *)
Lemma regenerate_fresh (uuid4 : nat -> string) rf_runs fuel :
  forall draws run_hash h n,
    regenerate fuel uuid4 draws run_hash rf_runs = Some (h, n) ->
    h ∉ dom rf_runs.
Proof.
  induction fuel as [|fuel IH]; intros draws run_hash h n; simpl;
    case_bool_decide as Hin; try discriminate.
  - intros [= <- _]. exact Hin.
  - apply IH.
  - intros [= <- _]. exact Hin.
Qed.

(** The loop ends as soon as a draw is fresh, given that much fuel. *)
Lemma regenerate_ends (uuid4 : nat -> string) rf_runs k :
  forall draws run_hash fuel,
    first8 (uuid4 (draws + k)%nat) ∉ dom rf_runs ->
    (k < fuel)%nat ->
    is_Some (regenerate fuel uuid4 draws run_hash rf_runs).
Proof.
  induction k as [|k IH]; intros draws run_hash [|fuel] Hfresh Hlt; try lia;
    simpl; case_bool_decide as Hin; try by eexists.
  - rewrite Nat.add_0_r in Hfresh.
    destruct fuel; simpl; rewrite bool_decide_eq_false_2 by done; by eexists.
  - apply IH; [|lia]. by rewrite <- Nat.add_succ_comm in Hfresh.
Qed.

Lemma new_run_hash_ends (uuid4 : nat -> string) rf_runs n :
  first8 (uuid4 n) ∉ dom rf_runs ->
  is_Some (new_run_hash (S n) uuid4 rf_runs).
Proof.
  intros Hfresh. unfold new_run_hash. destruct n as [|n].
  - simpl. rewrite bool_decide_eq_false_2 by done. by eexists.
  - apply (regenerate_ends uuid4 rf_runs n); [exact Hfresh | lia].
Qed.

(** C9: whenever the loop ends, the run hash it ends with is not a key
    of the dictionary loaded from the JSON file, so the dictionary
    written back once training returns holds the new run under that
    hash, one entry more, and every earlier run unchanged.  The loop
    does end as soon as some draw of [uuid4] is fresh. *)
Theorem train_rf_registers_fresh_hash (uuid4 : nat -> string)
    (train : string -> result V) (file : option (gmap string V)) :
  (forall fuel run_hash draws,
     new_run_hash fuel uuid4 (get_rf_runs file) = Some (run_hash, draws) ->
     get_rf_runs file !! run_hash = None
     /\ main_train_rf fuel uuid4 train file
        = Some (run_data ← train run_hash;
                mret (run_hash, <[ run_hash := run_data ]> (get_rf_runs file)))
     /\ forall run_data,
          <[ run_hash := run_data ]> (get_rf_runs file) !! run_hash = Some run_data
          /\ size (<[ run_hash := run_data ]> (get_rf_runs file))
             = S (size (get_rf_runs file))
          /\ forall k v, get_rf_runs file !! k = Some v ->
                         <[ run_hash := run_data ]> (get_rf_runs file) !! k = Some v)
  /\ (forall n,
        first8 (uuid4 n) ∉ dom (get_rf_runs file) ->
        is_Some (new_run_hash (S n) uuid4 (get_rf_runs file))).
Proof.
  split.
  - intros fuel h d Hh.
    pose proof (regenerate_fresh _ _ _ _ _ _ _ Hh) as Hnew.
    apply not_elem_of_dom in Hnew.
    split; [exact Hnew|]. split.
    + unfold main_train_rf. by rewrite Hh.
    + intros run_data. split; [apply lookup_insert_eq|].
      split; [by apply map_size_insert_None|].
      intros k v Hk. rewrite lookup_insert_ne; [exact Hk|]. congruence.
  - intros n. apply new_run_hash_ends.
Qed.

End RunHash.

(** The first draw is taken, the second is not: the loop ends after
    two draws and the earlier run is still there. *)
Example second_draw_is_registered :
  RandomForest.main_train_rf 1 Examples.two_uuids
    (fun run_hash => Ok ("run data of " +:+ run_hash)) Examples.one_run
  = Some (Ok ("6fa459ea",
              {[ "1b4e28ba" := "run data of 1b4e28ba";
                 "6fa459ea" := "run data of 6fa459ea" ]})).
Proof. vm_compute. reflexivity. Qed.

(** ** The module-level feature list *)
Section Features.
Import RandomForest.
Context {Model : Type} (train_rf_model : args -> list string -> result Model).

Lemma remove_in_place_FEATURES :
  remove_in_place FEATURES "InbreedingCoeff" initial_heap
  = (Ok tt, {[ FEATURES := tail FEATURES_initial ]}).
Proof.
  unfold remove_in_place, initial_heap. rewrite lookup_singleton_eq. simpl.
  by rewrite insert_singleton_eq.
Qed.

Lemma remove_in_place_twice :
  remove_in_place FEATURES "InbreedingCoeff" {[ FEATURES := tail FEATURES_initial ]}
  = (Raise (ValueError "list.remove(x): x not in list"),
     {[ FEATURES := tail FEATURES_initial ]}).
Proof.
  unfold remove_in_place. rewrite lookup_singleton_eq. reflexivity.
Qed.

Lemma train_rf_run (a : args) (h : heap) :
  train_rf train_rf_model a h =
    if no_inbreeding_coeff a then
      match remove_in_place FEATURES "InbreedingCoeff" h with
      | (Ok _, h') =>
        match deref FEATURES h' with
        | (Ok l, h'') => (train_rf_model a l, h'')
        | (Raise e, h'') => (Raise e, h'')
        end
      | (Raise e, h') => (Raise e, h')
      end
    else
      match deref FEATURES h with
      | (Ok l, h') => (train_rf_model a l, h')
      | (Raise e, h') => (Raise e, h')
      end.
Proof.
  unfold train_rf, mbind, M_bind, when_flag, lift.
  destruct (no_inbreeding_coeff a); simpl.
  - destruct (remove_in_place _ _ h) as [[[]|e] h']; [|reflexivity].
    destruct (deref FEATURES h') as [[l|e] h'']; reflexivity.
  - unfold mret, M_ret. destruct (deref FEATURES h) as [[l|e] h']; reflexivity.
Qed.

Lemma deref_singleton (l : list string) :
  deref FEATURES {[ FEATURES := l ]} = (Ok l, {[ FEATURES := l ]}).
Proof. unfold deref. by rewrite lookup_singleton_eq. Qed.

(** C7 fails on the code: [features = FEATURES] makes [features] another
    name of the module-level list, so [features.remove] with
    [--no_inbreeding_coeff] shortens [FEATURES] itself to nine
    elements.  A second call then trains without the inbreeding
    coefficient even when the flag is off, and raises [ValueError]
    when the flag is on again. *)
Theorem train_rf_mutates_FEATURES (a a' : args) :
  let after := snd (train_rf train_rf_model a initial_heap) in
  after !! FEATURES
  = Some (if no_inbreeding_coeff a then tail FEATURES_initial else FEATURES_initial)
  /\ fst (train_rf train_rf_model a' after)
     = (if no_inbreeding_coeff a && no_inbreeding_coeff a'
        then Raise (ValueError "list.remove(x): x not in list")
        else train_rf_model a'
               (if no_inbreeding_coeff a || no_inbreeding_coeff a'
                then tail FEATURES_initial else FEATURES_initial)).
Proof.
  cbv zeta. rewrite !train_rf_run.
  destruct (no_inbreeding_coeff a), (no_inbreeding_coeff a'); simpl;
    rewrite ?remove_in_place_FEATURES, ?deref_singleton; unfold initial_heap;
    rewrite ?deref_singleton; simpl;
    rewrite ?remove_in_place_twice, ?deref_singleton, ?lookup_singleton_eq;
    split; reflexivity.
Qed.

End Features.

(** ** Checkpoints *)
Section CheckpointProperties.
Import Engine Checkpoints.

Lemma resumable_reads_if_exists (p : string) : reads_if_exists (resumable p).
Proof. split; reflexivity. Qed.

Lemma always_overwrite_not_reads (p : string) : ~ reads_if_exists (always_overwrite p).
Proof. intros [? _]. discriminate. Qed.

Lemma overwrite_on_request_not_reads (p : string) :
  ~ reads_if_exists (overwrite_on_request p).
Proof. intros [? _]. discriminate. Qed.

(** A checkpoint that reads if exists returns what is persisted and
    leaves the store as it is. *)
Lemma run_site_reads {T} (c : site) (t persisted : T) (store : gmap string T) :
  reads_if_exists c ->
  store !! output c = Some persisted ->
  run_site c false t store = (Ok persisted, store).
Proof.
  intros [Hr _] Hp. unfold run_site, checkpoint. by rewrite Hp, Hr.
Qed.

(** Running it again, on whatever table, changes nothing. *)
Lemma run_site_again {T} (c : site) (t t' : T) (store : gmap string T) :
  reads_if_exists c ->
  run_site c false t' (snd (run_site c false t store))
  = run_site c false t store.
Proof.
  intros [Hr _]. unfold run_site, checkpoint. rewrite Hr.
  destruct (store !! output c) as [persisted|] eqn:Hp; simpl.
  - by rewrite Hp.
  - by rewrite lookup_insert_eq.
Qed.

(** C1, as stated, fails: the first checkpoint of [compute_qc_mt]
    passes [overwrite=True] and no read-if-exists; run without
    [--overwrite] on a store that holds a persisted table, it writes
    the recomputed table over it. *)
Lemma compute_qc_mt_checkpoint_overwrites :
  let c := always_overwrite "gs://gnomad-tmp/gnomad_v3_qc_mt_v2_sites_dense.mt" in
  (forall res run_hash, c ∈ stage_checkpoints res run_hash compute_qc_mt)
  /\ ~ reads_if_exists c
  /\ run_site c false "recomputed" {[ output c := "persisted" ]}
     = (Ok "recomputed", {[ output c := "recomputed" ]}).
Proof.
  cbv zeta. split; [intros; simpl; apply list_elem_of_here|].
  split; [apply always_overwrite_not_reads|].
  unfold run_site, checkpoint. rewrite lookup_singleton_eq. simpl.
  by rewrite insert_singleton_eq.
Qed.

(** Membership in a list of stages written out. *)
Ltac in_stage_list := apply list_elem_of_In; simpl; tauto.
Ltac not_in_stage_list H :=
  exfalso; apply list_elem_of_In in H; simpl in H; intuition discriminate.

(** C1, amended: the checkpoints that read if exists are those of the
    stages [generate_ac], [generate_fam_stats], [run_pc_relate],
    [run_pca], [assign_pops], [compute_related_samples_to_drop] and
    [generate_metadata].  Run without [--overwrite], each of these
    calls returns the table persisted at its path when there is one
    and leaves the store unchanged, and calling it again gives the
    same table and store.  The stage carries on with the table the
    call returns, except after the second call of [run_pca] and the
    call of [generate_metadata], whose result is dropped: there the
    stage carries on with the table it has computed.  Every other
    checkpoint passes no read-if-exists: those of [reannotate_sex],
    [compute_qc_mt], [reannotate_relatedness], [calculate_clinvar]
    and [annotate_for_rf] pass [overwrite=True] whatever the flag,
    those of [train_rf] and [apply_rf] pass
    [overwrite=args.overwrite]. *)
Theorem resumable_stages_read_if_exists (res : resources) (run_hash : string)
    (st : stage) (c : site) :
  c ∈ stage_checkpoints res run_hash st ->
  (reads_if_exists c <-> st ∈ resumable_stages)
  /\ (st ∈ resumable_stages ->
      forall T (t t' : T) (store : gmap string T),
        (forall persisted, store !! output c = Some persisted ->
                           run_site c false t store = (Ok persisted, store))
        /\ run_site c false t' (snd (run_site c false t store))
           = run_site c false t store)
  /\ (st ∈ resumable_stages ->
      forall (i : nat) (bound : bool) T (t persisted : T) (store : gmap string T),
        stage_checkpoints res run_hash st !! i = Some c ->
        result_bound st !! i = Some bound ->
        store !! output c = Some persisted ->
        carried_on c bound false t store
        = (Ok (if bound then persisted else t), store))
  /\ (forall i : nat,
        result_bound st !! i = Some false
        <-> (st = run_pca /\ i = 1%nat) \/ (st = generate_metadata /\ i = 0%nat))
  /\ (st ∈ overwriting_stages ->
      forall ow, call_flags c ow = {| overwrite := true; _read_if_exists := false |})
  /\ (st ∈ overwrite_on_request_stages ->
      forall ow, call_flags c ow = {| overwrite := ow; _read_if_exists := false |})
  /\ (st ∈ resumable_stages \/ st ∈ overwriting_stages
      \/ st ∈ overwrite_on_request_stages).
Proof.
  intros Hc.
  assert (reads_if_exists c <-> st ∈ resumable_stages) as Hiff.
  { destruct st; simpl in Hc;
      try (destruct (String.eqb _ EmptyString); simpl in Hc);
      repeat (apply elem_of_cons in Hc as [->|Hc]);
      try (by apply elem_of_nil in Hc);
      (split;
       [ intros Hr;
         first [ by apply always_overwrite_not_reads in Hr
               | by apply overwrite_on_request_not_reads in Hr
               | in_stage_list ]
       | intros Hin;
         first [ apply resumable_reads_if_exists | not_in_stage_list Hin ] ]). }
  split; [exact Hiff|]. split.
  { intros Hst T t t' store. apply Hiff in Hst. split.
    - intros persisted Hp. by apply run_site_reads.
    - by apply run_site_again. }
  split.
  { intros Hst i bound T t persisted store _ _ Hp. apply Hiff in Hst.
    unfold carried_on. by rewrite (run_site_reads c t persisted store Hst Hp). }
  split.
  { clear Hc Hiff. intros i.
    destruct st; simpl; destruct i as [|[|i]]; simpl;
      (split;
       [ intros H;
         first [ discriminate H
               | left; split; reflexivity
               | right; split; reflexivity ]
       | intros [[H1 H2]|[H1 H2]];
         first [ discriminate H1 | discriminate H2 | reflexivity ] ]). }
  clear Hiff.
  destruct st; simpl in Hc;
    try (destruct (String.eqb _ EmptyString); simpl in Hc);
    repeat (apply elem_of_cons in Hc as [->|Hc]);
    try (by apply elem_of_nil in Hc);
    (split; [|split]);
    try (intros Hin ow; first [ reflexivity | not_in_stage_list Hin ]);
    first [ left; in_stage_list
          | right; left; in_stage_list
          | right; right; in_stage_list ].
Qed.

End CheckpointProperties.

Lemma resumable_stages_read_if_exists_witness :
  Checkpoints.resumable "gs://gnomad-tmp/ac_tmp.ht"
    ∈ Checkpoints.stage_checkpoints Examples.resource_paths "6fa459ea"
        Checkpoints.generate_ac
  /\ (Checkpoints.reads_if_exists (Checkpoints.resumable "gs://gnomad-tmp/ac_tmp.ht")
      <-> Checkpoints.generate_ac ∈ Checkpoints.resumable_stages).
Proof.
  assert (Checkpoints.resumable "gs://gnomad-tmp/ac_tmp.ht"
            ∈ Checkpoints.stage_checkpoints Examples.resource_paths "6fa459ea"
                Checkpoints.generate_ac) as Hin.
  { simpl. apply list_elem_of_here. }
  split; [exact Hin|].
  exact (proj1 (resumable_stages_read_if_exists Examples.resource_paths "6fa459ea"
                  Checkpoints.generate_ac _ Hin)).
Defined.

(** ** The VCF export of the annotation script *)
Section ExportInfoVcf.
Import Engine QcAnnotations.
Context {Table MatrixTable : Type}.
Implicit Types (ext : @externals Table MatrixTable) (files : @fs Table MatrixTable).

(** The stage ends in an exception and writes nothing: the engine's
    error when there is no info table to read, and otherwise the
    [TypeError] of calling the string [info_vcf_path]. *)
Lemma export_info_vcf_stage_raises ext files :
  export_info_vcf_stage ext files
  = (Raise (match files !! Annotations.path (Annotations.get_info false) with
            | Some (TableFile _) => TypeError "'str' object is not callable"
            | _ => EngineError "no table at this path"
            end), files).
Proof.
  unfold export_info_vcf_stage, mbind, M_bind, read_table.
  destruct (files !! _) as [[t|mt|text]|]; reflexivity.
Qed.

Lemma bind_raises {S A B} (m : M S A) (k : A -> M S B) (s : S) :
  (forall a s', raises (fst (k a s'))) ->
  raises (fst ((m ≫= k) s)).
Proof.
  intros Hk. unfold mbind, M_bind.
  destruct (m s) as [[a|e] s']; simpl; [apply Hk | exact I].
Qed.

(** C2 fails on the code: whenever [--export_info_vcf] is passed,
    [main] ends in an exception.  When the two earlier stages are not
    selected it is the exception of the export stage, raised before
    [hl.export_vcf] is called, and the files are as they were. *)
Theorem main_export_info_vcf_raises ext (a : args) files :
  export_info_vcf a = true ->
  raises (fst (main ext a files))
  /\ (compute_info_flag a = false -> split_info a = false ->
      main ext a files
      = (Raise (match files !! Annotations.path (Annotations.get_info false) with
                | Some (TableFile _) => TypeError "'str' object is not callable"
                | _ => EngineError "no table at this path"
                end), files)).
Proof.
  intros Hflag.
  assert (forall s, raises (fst ((_ ← when_flag (export_info_vcf a)
                                        (export_info_vcf_stage ext);
            _ ← when_flag (generate_allele_data a) (generate_allele_data_stage ext a);
            _ ← when_flag (generate_ac a) (generate_ac_stage ext a);
            _ ← when_flag (generate_fam_stats a) (generate_fam_stats_stage ext a);
            _ ← when_flag (export_transmitted_singletons_vcf a)
                  (export_transmitted_singletons_vcf_stage ext);
            when_flag (vep a) (vep_stage ext a)) s))) as Hexport.
  { intros s. rewrite Hflag. unfold mbind, M_bind, when_flag.
    rewrite export_info_vcf_stage_raises. exact I. }
  split.
  - unfold main. apply bind_raises. intros _ s1.
    apply bind_raises. intros _ s2. apply Hexport.
  - intros Hc Hs. unfold main, mbind, M_bind, when_flag, mret, M_ret.
    rewrite Hc, Hs, Hflag, export_info_vcf_stage_raises. reflexivity.
Qed.

End ExportInfoVcf.

Lemma main_export_info_vcf_raises_witness :
  QcAnnotations.export_info_vcf Examples.only_export_info_vcf = true
  /\ raises (fst (QcAnnotations.main Examples.idle_stages
                    Examples.only_export_info_vcf Examples.info_table_only)).
Proof.
  split; [reflexivity|].
  exact (proj1 (main_export_info_vcf_raises Examples.idle_stages
                  Examples.only_export_info_vcf Examples.info_table_only eq_refl)).
Defined.

(** On storage that holds the info table the exception is the
    [TypeError], and no VCF file appears. *)
Example export_info_vcf_on_info_table :
  QcAnnotations.main Examples.idle_stages Examples.only_export_info_vcf
    Examples.info_table_only
  = (Raise (TypeError "'str' object is not callable"), Examples.info_table_only).
Proof. reflexivity. Qed.

(** ** The histogram script *)
Section Histograms.
Import Engine VarAnnotHists.
Context {Table MatrixTable HistExprs : Type}.
Implicit Types (ext : @externals Table HistExprs) (files : @fs Table MatrixTable).

Lemma ANNOTATIONS_HISTS_unbound : module_globals !! "ANNOTATIONS_HISTS" = None.
Proof. reflexivity. Qed.

Lemma try_slack_unbound : module_globals !! "try_slack" = None.
Proof. reflexivity. Qed.

(** C6 fails on the code: [ANNOTATIONS_HISTS] is neither imported nor
    defined in the module, so [main] ends in an exception for every
    argument namespace, with or without [--first_pass], and leaves
    the files and the standard output as they were: no JSON file is
    written.  When the release table is there to read, the exception
    is the [NameError] of that name. *)
Theorem main_raises_NameError ext (a : args) files :
  main ext a (initial_state files)
  = (Raise (match files !! release_ht_path ext with
            | Some (TableFile _) => NameError "ANNOTATIONS_HISTS"
            | _ => EngineError "no table at this path"
            end), initial_state files).
Proof.
  unfold main, mbind, M_bind, hl_read_table, read_table, load_global. simpl.
  destruct (files !! release_ht_path ext) as [[t|mt|text]|]; reflexivity.
Qed.

End Histograms.

(** ** Strand odds ratio *)
Section StrandOddsRatio.
Import RandomForest.
Context {F : Type} `{Float64 F}.

Lemma int32_add_exact (x y : Z) :
  - 2 ^ 31 <= x + y < 2 ^ 31 -> int32_add x y = x + y.
Proof. intros Hxy. unfold int32_add. rewrite Z.mod_small by lia. lia. Qed.

(** On four counts whose successors are 32-bit integers, [calc_SOR]
    is the formula applied to the counts plus one. *)
Lemma calc_SOR_formula (sb0 sb1 sb2 sb3 : Z) :
  Forall (fun x => 0 <= x < 2 ^ 31 - 1) [sb0; sb1; sb2; sb3] ->
  calc_SOR [sb0; sb1; sb2; sb3]
  = Ok (gatk_SOR (hl_float64 (sb0 + 1)) (hl_float64 (sb1 + 1))
                 (hl_float64 (sb2 + 1)) (hl_float64 (sb3 + 1))).
Proof.
  intros Hsb.
  apply Forall_cons in Hsb as [H0 Hsb]. apply Forall_cons in Hsb as [H1 Hsb].
  apply Forall_cons in Hsb as [H2 Hsb]. apply Forall_cons in Hsb as [H3 _].
  unfold calc_SOR, index. simpl. unfold mret, result_ret, gatk_SOR.
  by rewrite !int32_add_exact by lia.
Qed.

(** Whatever the four counts, [calc_SOR] is the formula applied to
    the 32-bit sums. *)
Lemma calc_SOR_int32 (sb0 sb1 sb2 sb3 : Z) :
  calc_SOR [sb0; sb1; sb2; sb3]
  = Ok (gatk_SOR (hl_float64 (int32_add sb0 1)) (hl_float64 (int32_add sb1 1))
                 (hl_float64 (int32_add sb2 1)) (hl_float64 (int32_add sb3 1))).
Proof. reflexivity. Qed.

(** A shorter array has no fourth element to index. *)
Lemma calc_SOR_short (SB : list Z) :
  (length SB < 4)%nat -> raises (calc_SOR SB).
Proof.
  intros Hlen.
  destruct SB as [|sb0 [|sb1 [|sb2 [|sb3 ?]]]]; simpl in Hlen; try lia; exact I.
Qed.

End StrandOddsRatio.

(** ** The strand odds ratio over the reals *)
Section StrandOddsRatioReals.
Import RandomForest.
Local Open Scope R_scope.

Lemma pseudocount_ge_1 (z : Z) : (0 <= z)%Z -> 1 <= IZR (z + 1).
Proof. intros Hz. apply IZR_le. lia. Qed.

Lemma symmetrical_ratio_ge_2 (p q : R) : 0 < p -> 0 < q -> 2 <= p / q + q / p.
Proof.
  intros Hp Hq.
  assert (p / q + q / p - 2 = (p - q) * (p - q) * / (p * q)) as Heq
      by (field; lra).
  assert (0 <= (p - q) * (p - q) * / (p * q)) as Hsq.
  { apply Rle_mult_inv_pos; [apply (Rle_0_sqr (p - q)) | by apply Rmult_lt_0_compat]. }
  lra.
Qed.

Lemma min_max_ratio (x y : R) : 0 < x -> 0 < y -> 0 < Rmin x y / Rmax x y <= 1.
Proof.
  intros Hx Hy. unfold Rmin, Rmax.
  destruct (Rle_dec x y) as [Hle|Hnle].
  - split; [by apply Rdiv_lt_0_compat|].
    apply (Rmult_le_reg_r y); [assumption|].
    unfold Rdiv. rewrite Rmult_assoc, Rinv_l by lra. lra.
  - split; [by apply Rdiv_lt_0_compat|].
    apply (Rmult_le_reg_r x); [assumption|].
    unfold Rdiv. rewrite Rmult_assoc, Rinv_l by lra. lra.
Qed.

(** With non-negative counts every divisor in [calc_SOR] is non-zero
    and every logarithm is taken of a positive number. *)
Lemma calc_SOR_well_defined (sb0 sb1 sb2 sb3 : Z) :
  (0 <= sb0)%Z -> (0 <= sb1)%Z -> (0 <= sb2)%Z -> (0 <= sb3)%Z ->
  let refFw := IZR (sb0 + 1) in
  let refRv := IZR (sb1 + 1) in
  let altFw := IZR (sb2 + 1) in
  let altRv := IZR (sb3 + 1) in
  altFw * refRv <> 0 /\ refFw * altRv <> 0
  /\ Rmax refRv refFw <> 0 /\ Rmax altFw altRv <> 0
  /\ 2 <= refFw * altRv / (altFw * refRv) + altFw * refRv / (refFw * altRv)
  /\ 0 < Rmin refRv refFw / Rmax refRv refFw <= 1
  /\ 0 < Rmin altFw altRv / Rmax altFw altRv <= 1.
Proof.
  intros H0 H1 H2 H3.
  apply pseudocount_ge_1 in H0, H1, H2, H3. cbv zeta.
  set (refFw := IZR (sb0 + 1)) in *. set (refRv := IZR (sb1 + 1)) in *.
  set (altFw := IZR (sb2 + 1)) in *. set (altRv := IZR (sb3 + 1)) in *.
  assert (0 < altFw * refRv) by (apply Rmult_lt_0_compat; lra).
  assert (0 < refFw * altRv) by (apply Rmult_lt_0_compat; lra).
  pose proof (Rmax_l refRv refFw). pose proof (Rmax_l altFw altRv).
  repeat split; try lra.
  - by apply symmetrical_ratio_ge_2.
  - apply min_max_ratio; lra.
  - apply min_max_ratio; lra.
  - apply min_max_ratio; lra.
  - apply min_max_ratio; lra.
Qed.

(** With no read on either strand the odds ratio is log 2. *)
Example calc_SOR_no_reads : calc_SOR (F := R) [0; 0; 0; 0]%Z = Ok (ln 2).
Proof.
  unfold calc_SOR, index. simpl. unfold mret, result_ret. f_equal.
  change (int32_add 0 1) with 1%Z. rewrite Rmin_left, Rmax_left by lra.
  replace (1 * 1 / (1 * 1) + 1 * 1 / (1 * 1)) with 2 by field.
  replace (1 / 1) with 1 by field. rewrite ln_1. lra.
Qed.

Lemma ln_nonpos (x : R) : x <= 0 -> ln x = 0.
Proof.
  intros Hx. unfold ln.
  destruct (Rlt_dec 0 x) as [Hpos|_]; [exfalso; exact (Rlt_irrefl 0 (Rlt_le_trans 0 x 0 Hpos Hx))|reflexivity].
Qed.

(** The formula at a forward reference count of 2^31, the other
    counts being 1, is positive; at -2^31 the logarithms are taken of
    negative numbers. *)
Lemma gatk_SOR_at_2_pow_31 : 0 < gatk_SOR (IZR (2 ^ 31)) 1 1 1.
Proof.
  unfold gatk_SOR. simpl.
  set (P := IZR (2 ^ 31)).
  assert (1 < P) as HP by (subst P; apply (IZR_lt 1); lia).
  rewrite (Rmin_left 1 P), (Rmax_right 1 P) by lra.
  rewrite (Rmin_left 1 1), (Rmax_left 1 1) by lra.
  replace (1 / 1) with 1 by field. rewrite ln_1.
  replace (P * 1 / (1 * 1) + 1 * 1 / (P * 1)) with (P + / P) by (field; lra).
  replace (1 / P) with (/ P) by (field; lra).
  rewrite ln_Rinv by lra.
  assert (0 < / P) by (apply Rinv_0_lt_compat; lra).
  assert (ln P < ln (P + / P)) by (apply ln_increasing; lra).
  lra.
Qed.

Lemma gatk_SOR_at_minus_2_pow_31 : gatk_SOR (IZR (- 2 ^ 31)) 1 1 1 = 0.
Proof.
  unfold gatk_SOR. simpl.
  set (N := IZR (- 2 ^ 31)).
  assert (N < -1) as HN by (subst N; apply (IZR_lt _ (-1)); lia).
  rewrite (Rmin_right 1 N), (Rmax_left 1 N) by lra.
  rewrite (Rmin_left 1 1), (Rmax_left 1 1) by lra.
  replace (1 / 1) with 1 by field. rewrite ln_1.
  replace (N / 1) with N by field.
  assert (/ N < 0) by (apply Rinv_lt_0_compat; lra).
  replace (N * 1 / (1 * 1) + 1 * 1 / (N * 1)) with (N + / N) by (field; lra).
  rewrite !ln_nonpos by lra. lra.
Qed.

End StrandOddsRatioReals.

(** C3, amended: on four non-negative counts below 2^31 - 1, where
    the 32-bit addition of the pseudocount is exact, [calc_SOR] is the
    published formula applied to the counts plus one,
    log(refFw*altRv/(altFw*refRv) + altFw*refRv/(refFw*altRv))
    + log(min(refRv,refFw)/max(refRv,refFw))
    - log(min(altFw,altRv)/max(altFw,altRv)),
    for every interpretation of the float64 operations; and over the
    reals no divisor of the formula is zero and every logarithm is
    taken of a positive number. *)
Theorem calc_SOR_matches_gatk_formula (SB : list Z) :
  length SB = 4%nat ->
  Forall (fun x => 0 <= x < 2 ^ 31 - 1) SB ->
  exists sb0 sb1 sb2 sb3,
    SB = [sb0; sb1; sb2; sb3]
    /\ (forall (F : Type) (float64 : RandomForest.Float64 F),
          RandomForest.calc_SOR SB
          = Ok (RandomForest.gatk_SOR
                  (RandomForest.hl_float64 (sb0 + 1))
                  (RandomForest.hl_float64 (sb1 + 1))
                  (RandomForest.hl_float64 (sb2 + 1))
                  (RandomForest.hl_float64 (sb3 + 1))))
    /\ (let refFw := IZR (sb0 + 1) in
        let refRv := IZR (sb1 + 1) in
        let altFw := IZR (sb2 + 1) in
        let altRv := IZR (sb3 + 1) in
        altFw * refRv <> 0 /\ refFw * altRv <> 0
        /\ Rmax refRv refFw <> 0 /\ Rmax altFw altRv <> 0
        /\ 2 <= refFw * altRv / (altFw * refRv) + altFw * refRv / (refFw * altRv)
        /\ 0 < Rmin refRv refFw / Rmax refRv refFw <= 1
        /\ 0 < Rmin altFw altRv / Rmax altFw altRv <= 1)%R.
Proof.
  intros Hlen Hsb.
  destruct SB as [|sb0 [|sb1 [|sb2 [|sb3 [|? ?]]]]]; try discriminate.
  exists sb0, sb1, sb2, sb3. split; [reflexivity|]. split.
  - intros F float64. by apply calc_SOR_formula.
  - apply Forall_cons in Hsb as [H0 Hsb]. apply Forall_cons in Hsb as [H1 Hsb].
    apply Forall_cons in Hsb as [H2 Hsb]. apply Forall_cons in Hsb as [H3 _].
    apply calc_SOR_well_defined; lia.
Qed.

Lemma calc_SOR_matches_gatk_formula_witness :
  length [0; 0; 0; 0] = 4%nat
  /\ Forall (fun x => 0 <= x < 2 ^ 31 - 1) [0; 0; 0; 0]
  /\ exists sb0 sb1 sb2 sb3,
       [0; 0; 0; 0] = [sb0; sb1; sb2; sb3]
       /\ RandomForest.calc_SOR (F := R) [0; 0; 0; 0]
          = Ok (RandomForest.gatk_SOR (IZR (sb0 + 1)) (IZR (sb1 + 1))
                                      (IZR (sb2 + 1)) (IZR (sb3 + 1))).
Proof.
  assert (Forall (fun x => 0 <= x < 2 ^ 31 - 1) [0; 0; 0; 0]) as Hsb.
  { repeat constructor; lia. }
  split; [reflexivity|]. split; [exact Hsb|].
  destruct (calc_SOR_matches_gatk_formula [0; 0; 0; 0] eq_refl Hsb)
    as (sb0 & sb1 & sb2 & sb3 & HSB & Hformula & _).
  exists sb0, sb1, sb2, sb3. split; [exact HSB|].
  exact (Hformula R Examples.real_float64).
Defined.

(** C3, as stated, fails: on the four non-negative counts
    2^31 - 1, 0, 0, 0 the 32-bit addition of the pseudocount wraps
    round to -2^31, and [calc_SOR] is the formula at -2^31, 1, 1, 1,
    not at 2^31, 1, 1, 1.  Over the reals the first is 0 and the
    second is positive. *)
Lemma calc_SOR_wraps_at_max_count :
  let SB := [2 ^ 31 - 1; 0; 0; 0] in
  Forall (fun x => 0 <= x) SB
  /\ (forall (F : Type) (float64 : RandomForest.Float64 F),
        RandomForest.calc_SOR SB
        = Ok (RandomForest.gatk_SOR
                (RandomForest.hl_float64 (- 2 ^ 31)) (RandomForest.hl_float64 1)
                (RandomForest.hl_float64 1) (RandomForest.hl_float64 1)))
  /\ RandomForest.calc_SOR (F := R) SB
     <> Ok (RandomForest.gatk_SOR (IZR (2 ^ 31 - 1 + 1)) (IZR (0 + 1))
                                  (IZR (0 + 1)) (IZR (0 + 1))).
Proof.
  cbv zeta. split; [repeat constructor; lia|]. split; [reflexivity|].
  rewrite calc_SOR_int32.
  change (RandomForest.int32_add (2 ^ 31 - 1) 1) with (- 2 ^ 31).
  change (RandomForest.int32_add 0 1) with 1.
  change (2 ^ 31 - 1 + 1) with (2 ^ 31). change (0 + 1) with 1.
  intros [= Heq].
  pose proof gatk_SOR_at_2_pow_31 as Hpos.
  pose proof gatk_SOR_at_minus_2_pow_31 as Hzero.
  change (RandomForest.gatk_SOR (IZR (- 2 ^ 31)) 1%R 1%R 1%R
          = RandomForest.gatk_SOR (IZR (2 ^ 31)) 1%R 1%R 1%R) in Heq.
  rewrite Hzero in Heq. rewrite <- Heq in Hpos. exact (Rlt_irrefl 0 Hpos).
Qed.

(** ** Allele counts of the info table *)
Section AlleleCounts.
Import QcAnnotations.
Variable get_adj_expr :
  option call -> option Z -> option Z -> option (list Z) -> option bool.

Lemma hl_int32_exact (x : Z) : - 2 ^ 31 <= x < 2 ^ 31 -> hl_int32 x = x.
Proof. intros Hx. unfold hl_int32. rewrite Z.mod_small by lia. lia. Qed.

Lemma one_hot_alleles_bounds (c : call) (n k : nat) (v : Z) :
  one_hot_alleles c n !! k = Some v -> 0 <= v <= 2.
Proof.
  unfold one_hot_alleles. rewrite list_lookup_fmap.
  destruct (seq 0 n !! k) as [i|]; [|discriminate]. simpl. intros [= <-].
  pose proof (count_occ_bound Nat.eq_dec i (call_alleles c)) as Hb.
  destruct c; simpl in Hb |- *; lia.
Qed.

Lemma allele_dosage_bounds (e : entry) (ai : nat) :
  0 <= default 0 (allele_dosage e ai) <= 2.
Proof.
  unfold allele_dosage.
  destruct (LGT e) as [c|]; simpl; [|lia].
  destruct (LA e) as [la|]; simpl; [|lia].
  destruct (la_index la ai) as [k|]; simpl; [|lia].
  destruct (one_hot_alleles c (length la) !! k) as [v|] eqn:Hv; simpl; [|lia].
  by apply one_hot_alleles_bounds in Hv.
Qed.

Lemma get_insert (d : gmap (option bool) Z) (k k' : option bool) (v : Z) :
  get (<[ k := v ]> d) k' 0 = if decide (k = k') then v else get d k' 0.
Proof. unfold get. rewrite lookup_insert. by case_decide. Qed.

Lemma counted_empty : counted ∅ 0.
Proof. split; [intros k|]; unfold get; rewrite ?lookup_empty; simpl; lia. Qed.

Lemma counted_step (ai : nat) (d : gmap (option bool) Z) (e : entry) (n : Z) :
  counted d n -> counted (grp_ac_step get_adj_expr ai d e) (n + 1).
Proof.
  intros [Hpos Hsum]. unfold grp_ac_step.
  destruct (LA_contains e ai) as [[|]|]; try (split; [exact Hpos | lia]).
  pose proof (allele_dosage_bounds e ai) as Hv.
  pose proof (Hpos (Some true)) as Ht. pose proof (Hpos (Some false)) as Hf.
  pose proof (Hpos None) as Hm.
  set (v := default 0 (allele_dosage e ai)) in *.
  set (k := get_adj_expr (LGT e) (GQ e) (DP e) (LAD e)).
  split.
  - intros k'. rewrite get_insert. case_decide; [subst k'|apply Hpos].
    specialize (Hpos k). lia.
  - rewrite !get_insert.
    destruct k as [[|]|]; repeat case_decide; try congruence; lia.
Qed.

Lemma counted_foldl (ai : nat) (es : list entry) :
  forall d n,
    counted d n ->
    counted (foldl (grp_ac_step get_adj_expr ai) d es) (n + Z.of_nat (length es)).
Proof.
  induction es as [|e es IH]; intros d n Hd; simpl foldl.
  - simpl. by rewrite Z.add_0_r.
  - replace (n + Z.of_nat (length (e :: es)))
      with (n + 1 + Z.of_nat (length es)) by (simpl length; lia).
    apply IH. by apply counted_step.
Qed.

(** Both grouped sums of a row are between zero and twice the number
    of its entries. *)
Lemma grp_ac_expr_bounds (r : row) (i : nat) (d : gmap (option bool) Z) :
  grp_ac_expr get_adj_expr r !! i = Some d ->
  0 <= get d (Some true) 0
  /\ 0 <= get d (Some false) 0
  /\ get d (Some true) 0 + get d (Some false) 0 <= 2 * Z.of_nat (length (entries r)).
Proof.
  unfold grp_ac_expr. rewrite list_lookup_fmap.
  destruct (alt_alleles_range_array r !! i) as [ai|]; [|discriminate].
  simpl. intros [= <-].
  destruct (counted_foldl ai (entries r) ∅ 0 counted_empty) as [Hpos Hsum].
  pose proof (Hpos (Some true)). pose proof (Hpos (Some false)).
  pose proof (Hpos None). lia.
Qed.

(** C8, amended: in a row of fewer than 2^30 samples, where the
    32-bit conversion of the counts is exact, [AC] and [AC_raw] have
    one element per alternate allele and 0 <= AC[i] <= AC_raw[i] at
    every index. *)
Theorem AC_le_AC_raw (mt : list row) (l : string) (als : list string) (inf : info) :
  (forall r, r ∈ mt -> Z.of_nat (length (entries r)) < 2 ^ 30) ->
  (l, als, inf) ∈ compute_info get_adj_expr mt ->
  length (AC inf) = (length als - 1)%nat
  /\ length (AC_raw inf) = (length als - 1)%nat
  /\ forall i ac raw,
       AC inf !! i = Some ac -> AC_raw inf !! i = Some raw -> 0 <= ac <= raw.
Proof.
  intros Hsize Hin. unfold compute_info in Hin.
  apply list_elem_of_fmap in Hin as (r & [= -> -> ->] & Hr).
  apply list_elem_of_filter in Hr as [_ Hr]. specialize (Hsize r Hr).
  unfold info_expr; simpl. split; [|split].
  - unfold grp_ac_expr, alt_alleles_range_array.
    by rewrite !length_fmap, length_seq.
  - unfold grp_ac_expr, alt_alleles_range_array.
    by rewrite !length_fmap, length_seq.
  - intros i ac raw. rewrite !list_lookup_fmap.
    destruct (grp_ac_expr get_adj_expr r !! i) as [d|] eqn:Hd; [|discriminate].
    simpl. intros [= <-] [= <-].
    apply grp_ac_expr_bounds in Hd as (Ht & Hf & Hsum).
    rewrite !hl_int32_exact by lia. lia.
Qed.

End AlleleCounts.

Lemma AC_le_AC_raw_witness :
  (forall r, r ∈ [QcAnnotations.uniform_row 3] ->
             Z.of_nat (length (QcAnnotations.entries r)) < 2 ^ 30)
  /\ forall i ac raw,
       QcAnnotations.AC
         (QcAnnotations.info_expr QcAnnotations.adj_thresholds
            (QcAnnotations.uniform_row 3)) !! i = Some ac ->
       QcAnnotations.AC_raw
         (QcAnnotations.info_expr QcAnnotations.adj_thresholds
            (QcAnnotations.uniform_row 3)) !! i = Some raw ->
       0 <= ac <= raw.
Proof.
  assert (forall r, r ∈ [QcAnnotations.uniform_row 3] ->
                    Z.of_nat (length (QcAnnotations.entries r)) < 2 ^ 30) as Hsize.
  { intros r Hr. apply list_elem_of_singleton in Hr. subst r. simpl. lia. }
  split; [exact Hsize|].
  apply (AC_le_AC_raw QcAnnotations.adj_thresholds [QcAnnotations.uniform_row 3]
           "chr1:1000" ["A"; "T"] _ Hsize).
  apply list_elem_of_fmap. exists (QcAnnotations.uniform_row 3).
  split; [reflexivity|]. apply list_elem_of_filter.
  split; [simpl; lia | apply list_elem_of_here].
Defined.

(** Four samples at a bi-allelic site: a homozygous alternate call
    that passes the thresholds, a heterozygous call that fails them, a
    heterozygous call whose adj status is missing, and a reference
    block.  The first counts for both fields, the second for the raw
    count only, the last two for neither. *)
Example info_expr_four_samples :
  QcAnnotations.info_expr QcAnnotations.adj_thresholds QcAnnotations.four_samples
  = {| QcAnnotations.AC_raw := [3]; QcAnnotations.AC := [2] |}.
Proof. vm_compute. reflexivity. Qed.

Section AlleleCountsOverflow.
Import QcAnnotations.

Lemma grp_ac_step_hom_alt (d : gmap (option bool) Z) :
  grp_ac_step adj_thresholds 1 d hom_alt
  = <[ Some true := get d (Some true) 0 + 2 ]> d.
Proof. reflexivity. Qed.

Lemma foldl_uniform (n : nat) :
  forall d,
    get (foldl (grp_ac_step adj_thresholds 1) d (replicate n hom_alt)) (Some true) 0
    = get d (Some true) 0 + 2 * Z.of_nat n
    /\ get (foldl (grp_ac_step adj_thresholds 1) d (replicate n hom_alt)) (Some false) 0
       = get d (Some false) 0.
Proof.
  induction n as [|n IH]; intros d.
  - simpl. split; lia.
  - change (replicate (S n) hom_alt) with (hom_alt :: replicate n hom_alt).
    simpl foldl. rewrite grp_ac_step_hom_alt.
    destruct (IH (<[ Some true := get d (Some true) 0 + 2 ]> d)) as [-> ->].
    unfold get. rewrite lookup_insert_eq, lookup_insert_ne by done. simpl. lia.
Qed.

Lemma info_expr_uniform (n : nat) :
  AC (info_expr adj_thresholds (uniform_row n)) = [hl_int32 (2 * Z.of_nat n)]
  /\ AC_raw (info_expr adj_thresholds (uniform_row n)) = [hl_int32 (2 * Z.of_nat n)].
Proof.
  unfold info_expr, grp_ac_expr, alt_alleles_range_array. simpl.
  destruct (foldl_uniform n ∅) as [-> ->]. unfold get. rewrite !lookup_empty.
  simpl. rewrite Z.add_0_r. done.
Qed.

Lemma compute_info_uniform (n : nat) :
  (locus (uniform_row n), alleles (uniform_row n),
   info_expr adj_thresholds (uniform_row n))
  ∈ compute_info adj_thresholds [uniform_row n].
Proof.
  unfold compute_info. apply list_elem_of_fmap.
  exists (uniform_row n). split; [reflexivity|].
  apply list_elem_of_filter. split; [simpl; lia | apply list_elem_of_here].
Qed.

(** C8, as stated, fails: at a bi-allelic site where 2^30 samples all
    have a homozygous alternate call of high quality, the count 2^31
    does not fit the 32-bit conversion, and the info table has
    AC[0] = AC_raw[0] = -2^31, below zero. *)
Lemma AC_negative_at_2_pow_30_samples :
  let r := uniform_row (Z.to_nat (2 ^ 30)) in
  (locus r, alleles r, info_expr adj_thresholds r) ∈ compute_info adj_thresholds [r]
  /\ AC (info_expr adj_thresholds r) = [- 2 ^ 31]
  /\ AC_raw (info_expr adj_thresholds r) = [- 2 ^ 31]
  /\ ~ (forall i ac raw,
          AC (info_expr adj_thresholds r) !! i = Some ac ->
          AC_raw (info_expr adj_thresholds r) !! i = Some raw ->
          0 <= ac <= raw).
Proof.
  cbv zeta.
  destruct (info_expr_uniform (Z.to_nat (2 ^ 30))) as [HAC Hraw].
  rewrite Z2Nat.id in HAC, Hraw by lia.
  change (hl_int32 (2 * 2 ^ 30)) with (- 2 ^ 31) in HAC, Hraw.
  split; [apply compute_info_uniform|].
  rewrite HAC, Hraw. split; [reflexivity|]. split; [reflexivity|].
  intros Hclaim. specialize (Hclaim 0%nat (- 2 ^ 31) (- 2 ^ 31) eq_refl eq_refl).
  lia.
Qed.

End AlleleCountsOverflow.

(** * Further properties of the scripts *)

#[local] Set Warnings "-clear-no-such-hyp".

(** ** Run data of the random-forest script *)
Section RunData.
Import Sums RandomForest RandomForestRuns.

Lemma Zsum_cons (x : Z) (l : list Z) : Zsum (x :: l) = x + Zsum l.
Proof. reflexivity. Qed.

Lemma count_results_from (rows : list test_row) :
  forall tps total,
    foldl count_step (tps, total) rows
    = (tps + Zsum (n <$> filter (fun r => rf_label r = rf_prediction r) rows),
       total + Zsum (n <$> rows)).
Proof.
  induction rows as [|r rows IH]; intros tps total.
  - simpl. f_equal; change (Zsum []) with 0; lia.
  - change (foldl count_step (tps, total) (r :: rows))
      with (foldl count_step (count_step (tps, total) r) rows).
    unfold count_step at 2. rewrite IH, filter_cons, fmap_cons, Zsum_cons.
    destruct (String.eqb_spec (rf_label r) (rf_prediction r)) as [Heq|Hne].
    + rewrite decide_True by done. rewrite fmap_cons, Zsum_cons. f_equal; lia.
    + rewrite decide_False by done. f_equal; lia.
Qed.

Lemma count_results_sums (rows : list test_row) :
  count_results rows
  = (Zsum (n <$> filter (fun r => rf_label r = rf_prediction r) rows),
     Zsum (n <$> rows)).
Proof. unfold count_results. by rewrite count_results_from. Qed.

Lemma Zsum_filter_le (P : test_row -> Prop) `{forall r, Decision (P r)}
    (rows : list test_row) :
  Forall (fun r => 0 <= n r) rows ->
  0 <= Zsum (n <$> filter P rows) <= Zsum (n <$> rows).
Proof.
  induction 1 as [|r rows Hr _ IH]; [change (Zsum (n <$> filter P [])) with 0;
                                     change (Zsum (n <$> [])) with 0; lia|].
  rewrite filter_cons, fmap_cons, Zsum_cons.
  destruct (decide (P r)); rewrite ?fmap_cons, ?Zsum_cons; lia.
Qed.

(** X1: [get_run_data] raises [ZeroDivisionError] exactly when test
    results are given and their site counts sum to zero, as they do
    for an empty list; without test results it returns run data with
    neither results nor accuracy. *)
Theorem get_run_data_zero_division {FI TI} (ts adj vqsr fct : bool)
    (ti : TI) (fi : FI) :
  (forall rows,
     get_run_data ts adj vqsr fct ti fi (Some rows) = ZeroDivisionError
     <-> Zsum (n <$> rows) = 0)
  /\ get_run_data ts adj vqsr fct ti fi (Some []) = ZeroDivisionError
  /\ exists d,
       get_run_data ts adj vqsr fct ti fi None = Returns d
       /\ test_results d = None /\ test_accuracy d = None.
Proof.
  split; [|split].
  - intros rows. unfold get_run_data. rewrite count_results_sums.
    destruct (Z.eqb_spec (Zsum (n <$> rows)) 0) as [Hz|Hnz]; split;
      try done; intros; congruence.
  - reflexivity.
  - eexists. split; [reflexivity|]. split; reflexivity.
Qed.

(** X2: when no site count is negative and some is positive,
    [get_run_data] returns, and the accuracy it records divides the
    sites whose label equals the prediction by all sites: the
    numerator is between zero and the denominator, which is positive. *)
Theorem get_run_data_accuracy {FI TI} (ts adj vqsr fct : bool)
    (ti : TI) (fi : FI) (rows : list test_row) :
  Forall (fun r => 0 <= n r) rows ->
  0 < Zsum (n <$> rows) ->
  exists d tps total,
    get_run_data ts adj vqsr fct ti fi (Some rows) = Returns d
    /\ test_results d = Some rows
    /\ test_accuracy d = Some (tps, total)
    /\ tps = Zsum (n <$> filter (fun r => rf_label r = rf_prediction r) rows)
    /\ total = Zsum (n <$> rows)
    /\ 0 <= tps <= total.
Proof.
  intros Hpos Htotal. unfold get_run_data. rewrite count_results_sums.
  destruct (Z.eqb_spec (Zsum (n <$> rows)) 0) as [Hz|Hnz]; [lia|].
  eexists _, _, _. split; [reflexivity|]. repeat (split; [reflexivity|]).
  by apply Zsum_filter_le.
Qed.

(** X3: the run data [main] records agree with the labels [train_rf]
    trains on.  With [--vqsr_training] the recorded
    [transmitted_singletons] is [None] and neither label depends on
    [--no_transmitted_singletons] or on the truth-data columns;
    otherwise it is recorded as used exactly when a transmitted
    singleton is a true positive whatever its other columns are. *)
Theorem run_data_agrees_with_labels {FI TI} (a : args) (ti : TI) (fi : FI)
    (tr : option (list test_row)) (d : run_data FI TI) :
  main_get_run_data a ti fi tr = Returns d ->
  (transmitted_singletons (run_input_args d) = None <-> vqsr_training a = true)
  /\ (vqsr_training a = true ->
      forall ht, tp_expr a ht = vqsr_POSITIVE_TRAIN_SITE ht
                 /\ fp_expr a ht = vqsr_NEGATIVE_TRAIN_SITE ht)
  /\ (transmitted_singletons (run_input_args d) = Some true <->
      vqsr_training a = false
      /\ forall ht, transmitted_singleton ht = Some true -> tp_expr a ht = Some true)
  /\ (transmitted_singletons (run_input_args d) = Some false ->
      forall ht, tp_expr a ht = Hail.hl_or (omni ht) (mills ht)).
Proof.
  unfold main_get_run_data, get_run_data, tp_expr, fp_expr. intros Hd.
  assert (transmitted_singletons (run_input_args d)
          = if vqsr_training a then None
            else Some (negb (no_transmitted_singletons a))) as ->.
  { destruct tr as [rows|]; [|by injection Hd as <-].
    destruct (count_results rows) as [tps total].
    destruct (total =? 0); [discriminate|]. by injection Hd as <-. }
  clear Hd.
  destruct (vqsr_training a), (no_transmitted_singletons a); simpl;
    repeat split; try done; try (intros [? ?]; done).
  - intros [_ Htp].
    specialize (Htp {| omni := Some false; mills := Some false;
                       transmitted_singleton := Some true;
                       fail_hard_filters := None;
                       vqsr_POSITIVE_TRAIN_SITE := None;
                       vqsr_NEGATIVE_TRAIN_SITE := None |} eq_refl).
    discriminate.
  - intros ht Hts. rewrite Hts.
    destruct (omni ht) as [[|]|], (mills ht) as [[|]|]; reflexivity.
Qed.

End RunData.


Lemma get_run_data_accuracy_witness :
  Forall (fun r => 0 <= RandomForestRuns.n r) Inputs.test_rows
  /\ 0 < Sums.Zsum (RandomForestRuns.n <$> Inputs.test_rows)
  /\ exists d tps total,
       RandomForestRuns.get_run_data true false false false tt tt
         (Some Inputs.test_rows) = RandomForestRuns.Returns d
       /\ RandomForestRuns.test_results d = Some Inputs.test_rows
       /\ RandomForestRuns.test_accuracy d = Some (tps, total)
       /\ tps = Sums.Zsum (RandomForestRuns.n
                           <$> filter (fun r => RandomForestRuns.rf_label r
                                                = RandomForestRuns.rf_prediction r)
                                      Inputs.test_rows)
       /\ total = Sums.Zsum (RandomForestRuns.n <$> Inputs.test_rows)
       /\ 0 <= tps <= total.
Proof.
  assert (Forall (fun r => 0 <= RandomForestRuns.n r) Inputs.test_rows) as Hpos
      by (repeat constructor; simpl; lia).
  assert (0 < Sums.Zsum (RandomForestRuns.n <$> Inputs.test_rows)) as Htotal
      by reflexivity.
  split; [exact Hpos|]. split; [exact Htotal|].
  exact (get_run_data_accuracy true false false false tt tt Inputs.test_rows
           Hpos Htotal).
Defined.

Lemma run_data_agrees_with_labels_witness :
  exists d : RandomForestRuns.run_data unit unit,
    RandomForestRuns.main_get_run_data Inputs.apply_with_hash tt tt None
    = RandomForestRuns.Returns d
    /\ (RandomForestRuns.transmitted_singletons (RandomForestRuns.run_input_args d)
        = None
        <-> RandomForest.vqsr_training Inputs.apply_with_hash = true).
Proof.
  eexists. split; [reflexivity|].
  exact (proj1 (run_data_agrees_with_labels Inputs.apply_with_hash tt tt None _
                  eq_refl)).
Defined.

(** ** The run hash [main] applies the model under *)
Section ApplyRunHash.
Import RandomForest RandomForestRuns.

Lemma main_calls_apply (a : args) (generated : string) (h : option string) :
  ApplyRf h ∈ main_calls a generated <->
  apply_rf a = true
  /\ h = (if train_rf_flag a then Some generated else run_hash a).
Proof.
  unfold main_calls. rewrite !elem_of_app.
  destruct (list_rf_runs a), (annotate_for_rf a), (train_rf_flag a), (apply_rf a);
    simpl; rewrite ?elem_of_cons, ?elem_of_nil; split;
    intuition (try discriminate; try congruence).
Qed.

(** X4: once the script has passed its validation, the model is only
    ever applied under a usable hash: the one the same run has just
    trained and registered, or else the non-empty [--run_hash] value;
    never under [None] or an empty string coming from the command
    line. *)
Theorem validated_apply_has_run_hash (a : args) (with_slack : bool)
    (generated : string) (h : option string) :
  script a = RunMain with_slack a ->
  ApplyRf h ∈ main_calls a generated ->
  (train_rf_flag a = true /\ h = Some generated
   /\ TrainRf generated ∈ main_calls a generated
   /\ RegisterRun generated ∈ main_calls a generated)
  \/ (train_rf_flag a = false /\ h = run_hash a /\ truthy h = true
      /\ forall g, TrainRf g ∉ main_calls a generated).
Proof.
  rewrite script_cases, main_calls_apply. intros Hscript [Happly ->].
  unfold main_calls. rewrite Happly in *.
  destruct (train_rf_flag a); simpl in *.
  - left. split; [done|]. split; [done|].
    destruct (list_rf_runs a), (annotate_for_rf a); simpl;
      split; apply list_elem_of_In; simpl; tauto.
  - right. destruct (truthy (run_hash a)); simpl in Hscript; [|discriminate].
    repeat split; try done. intros g Hg.
    destruct (list_rf_runs a), (annotate_for_rf a); simpl in Hg;
      apply list_elem_of_In in Hg; simpl in Hg; intuition discriminate.
Qed.

End ApplyRunHash.


Lemma validated_apply_has_run_hash_witness :
  RandomForest.script Inputs.apply_with_hash
  = RandomForest.RunMain false Inputs.apply_with_hash
  /\ RandomForestRuns.ApplyRf (Some "6fa459ea")
       ∈ RandomForestRuns.main_calls Inputs.apply_with_hash "1b4e28ba"
  /\ Py.truthy (Some "6fa459ea") = true.
Proof.
  assert (RandomForestRuns.ApplyRf (Some "6fa459ea")
            ∈ RandomForestRuns.main_calls Inputs.apply_with_hash "1b4e28ba") as Hin
      by (simpl; apply list_elem_of_here).
  split; [reflexivity|]. split; [exact Hin|].
  destruct (validated_apply_has_run_hash Inputs.apply_with_hash false "1b4e28ba"
              (Some "6fa459ea") eq_refl Hin)
    as [(Htrain & _)|(_ & _ & Htruthy & _)]; [discriminate Htrain|exact Htruthy].
Defined.

(** ** [train_rf] on any heap *)
Section TrainRfFrame.
Import RandomForest.
Context {Model : Type} (train_rf_model : args -> list string -> result Model).

Lemma list_remove_absent (x : string) (l : list string) :
  x ∉ l -> list_remove x l = Raise (ValueError "list.remove(x): x not in list").
Proof.
  induction l as [|y l IH]; intros Hx; simpl; [reflexivity|].
  apply not_elem_of_cons in Hx as [Hne Hx].
  destruct (String.eqb_spec x y); [done|]. by rewrite IH.
Qed.

Lemma list_remove_first (x : string) (l1 l2 : list string) :
  x ∉ l1 -> list_remove x (l1 ++ x :: l2) = Ok (l1 ++ l2).
Proof.
  induction l1 as [|y l1 IH]; intros Hx; simpl.
  - by rewrite String.eqb_refl.
  - apply not_elem_of_cons in Hx as [Hne Hx].
    destruct (String.eqb_spec x y); [done|]. by rewrite IH.
Qed.

(** X5: what [train_rf] does to the module-level lists, on any state
    of them.  Without [--no_inbreeding_coeff] it changes nothing and
    trains on the current content of [FEATURES].  With the flag it
    removes the first "InbreedingCoeff" from [FEATURES] in place,
    trains on the rest and leaves every other list alone; when
    [FEATURES] has no such element it raises [ValueError] before any
    training and changes nothing. *)
Theorem train_rf_on_any_heap (a : args) (h : gmap nat (list string))
    (l : list string) :
  h !! FEATURES = Some l ->
  (no_inbreeding_coeff a = false ->
   train_rf train_rf_model a h = (train_rf_model a l, h))
  /\ (no_inbreeding_coeff a = true -> "InbreedingCoeff" ∉ l ->
      train_rf train_rf_model a h
      = (Raise (ValueError "list.remove(x): x not in list"), h))
  /\ (no_inbreeding_coeff a = true ->
      forall l1 l2,
        l = l1 ++ "InbreedingCoeff" :: l2 -> "InbreedingCoeff" ∉ l1 ->
        train_rf train_rf_model a h
        = (train_rf_model a (l1 ++ l2), <[ FEATURES := l1 ++ l2 ]> h)
        /\ forall r, r <> FEATURES ->
                     <[ FEATURES := l1 ++ l2 ]> h !! r = h !! r).
Proof.
  intros Hl. rewrite train_rf_run. split; [|split].
  - intros ->. unfold deref. by rewrite Hl.
  - intros -> Habsent. unfold remove_in_place.
    by rewrite Hl, list_remove_absent.
  - intros -> l1 l2 -> Hfirst. unfold remove_in_place, deref.
    rewrite Hl, list_remove_first by done. rewrite lookup_insert_eq.
    split; [reflexivity|]. intros r Hr. by rewrite lookup_insert_ne.
Qed.

End TrainRfFrame.


Lemma train_rf_on_any_heap_witness :
  Inputs.two_lists !! RandomForest.FEATURES = Some RandomForest.FEATURES_initial
  /\ (RandomForest.no_inbreeding_coeff Inputs.apply_with_hash = false ->
      RandomForest.train_rf Inputs.features_as_model Inputs.apply_with_hash
        Inputs.two_lists
      = (Py.Ok RandomForest.FEATURES_initial, Inputs.two_lists)).
Proof.
  assert (Inputs.two_lists !! RandomForest.FEATURES
          = Some RandomForest.FEATURES_initial) as Hl by reflexivity.
  split; [exact Hl|].
  exact (proj1 (train_rf_on_any_heap Inputs.features_as_model
                  Inputs.apply_with_hash Inputs.two_lists _ Hl)).
Defined.

(** ** Checkpoints with and without [--overwrite] *)
Section CheckpointsOverwrite.
Import Engine Checkpoints.

Ltac in_stages := apply list_elem_of_In; simpl; tauto.
Ltac not_in_stages H :=
  exfalso; apply list_elem_of_In in H; simpl in H; intuition discriminate.

Lemma stage_checkpoints_forms (res : resources) (run_hash : string)
    (st : stage) (c : site) :
  c ∈ stage_checkpoints res run_hash st ->
  (st ∈ resumable_stages /\ c = resumable (output c))
  \/ (st ∈ overwriting_stages /\ c = always_overwrite (output c))
  \/ (st ∈ overwrite_on_request_stages /\ c = overwrite_on_request (output c)).
Proof.
  intros Hc.
  destruct st; simpl in Hc;
    try (destruct (String.eqb _ EmptyString); simpl in Hc);
    repeat (apply elem_of_cons in Hc as [->|Hc]);
    try (by apply elem_of_nil in Hc);
    first [ left; split; [in_stages | reflexivity]
          | right; left; split; [in_stages | reflexivity]
          | right; right; split; [in_stages | reflexivity] ].
Qed.

(** X6: with [--overwrite], every checkpoint of every stage writes
    the table it is called on at its path, whatever was there, and
    returns it; none reads a persisted table and none raises. *)
Theorem overwrite_rewrites_every_checkpoint {T} (res : resources)
    (run_hash : string) (st : stage) (c : site) (t : T) (store : gmap string T) :
  c ∈ stage_checkpoints res run_hash st ->
  run_site c true t store = (Ok t, <[ output c := t ]> store).
Proof.
  intros Hc.
  destruct (stage_checkpoints_forms _ _ _ _ Hc) as [[_ ->]|[[_ ->]|[_ ->]]];
    unfold run_site, checkpoint; simpl;
    by destruct (store !! output c).
Qed.

(** X7: the checkpoints of [train_rf] and [apply_rf], run without
    [--overwrite], raise when a table is already persisted at their
    path and leave it as it is; on a free path they write and return
    the new table.  Applying the same run hash twice needs
    [--overwrite]. *)
Theorem rf_checkpoints_refuse_existing_path {T} (res : resources)
    (run_hash : string) (st : stage) (c : site) (t : T) (store : gmap string T) :
  st ∈ overwrite_on_request_stages ->
  c ∈ stage_checkpoints res run_hash st ->
  (forall persisted,
     store !! output c = Some persisted ->
     run_site c false t store = (Raise (EngineError "path already exists"), store))
  /\ (store !! output c = None ->
      run_site c false t store = (Ok t, <[ output c := t ]> store))
  /\ forall t',
       fst (run_site c false t' (snd (run_site c false t store)))
       = Raise (EngineError "path already exists").
Proof.
  intros Hst Hc.
  assert (c = overwrite_on_request (output c)) as Hform.
  { destruct (stage_checkpoints_forms _ _ _ _ Hc) as [[Hin _]|[[Hin _]|[_ ->]]];
      [| |reflexivity];
      destruct st; try not_in_stages Hst; not_in_stages Hin. }
  rewrite Hform. unfold run_site, checkpoint; simpl. split; [|split].
  - by intros persisted ->.
  - by intros ->.
  - intros t'. destruct (store !! output c) as [persisted|] eqn:Hp; simpl.
    + by rewrite Hp.
    + by rewrite lookup_insert_eq.
Qed.

End CheckpointsOverwrite.


Lemma overwrite_rewrites_every_checkpoint_witness :
  Checkpoints.resumable "gs://gnomad-tmp/ac_tmp.ht"
    ∈ Checkpoints.stage_checkpoints Examples.resource_paths "6fa459ea"
        Checkpoints.generate_ac
  /\ Checkpoints.run_site (Checkpoints.resumable "gs://gnomad-tmp/ac_tmp.ht") true
       "allele counts" Inputs.persisted_tables
     = (Py.Ok "allele counts",
        <[ "gs://gnomad-tmp/ac_tmp.ht" := "allele counts" ]> Inputs.persisted_tables).
Proof.
  assert (Checkpoints.resumable "gs://gnomad-tmp/ac_tmp.ht"
            ∈ Checkpoints.stage_checkpoints Examples.resource_paths "6fa459ea"
                Checkpoints.generate_ac) as Hin
      by (simpl; apply list_elem_of_here).
  split; [exact Hin|].
  exact (overwrite_rewrites_every_checkpoint Examples.resource_paths "6fa459ea"
           Checkpoints.generate_ac _ "allele counts" Inputs.persisted_tables Hin).
Defined.

Lemma rf_checkpoints_refuse_existing_path_witness :
  Checkpoints.train_rf ∈ Checkpoints.overwrite_on_request_stages
  /\ Checkpoints.overwrite_on_request "gs://gnomad/variant_qc/rf/6fa459ea/training.ht"
       ∈ Checkpoints.stage_checkpoints Examples.resource_paths "6fa459ea"
           Checkpoints.train_rf
  /\ forall persisted,
       Inputs.persisted_tables !! "gs://gnomad/variant_qc/rf/6fa459ea/training.ht"
       = Some persisted ->
       Checkpoints.run_site
         (Checkpoints.overwrite_on_request
            "gs://gnomad/variant_qc/rf/6fa459ea/training.ht")
         false "training table of this run" Inputs.persisted_tables
       = (Py.Raise (Py.EngineError "path already exists"), Inputs.persisted_tables).
Proof.
  assert (Checkpoints.train_rf ∈ Checkpoints.overwrite_on_request_stages) as Hst
      by apply list_elem_of_here.
  assert (Checkpoints.overwrite_on_request
            "gs://gnomad/variant_qc/rf/6fa459ea/training.ht"
            ∈ Checkpoints.stage_checkpoints Examples.resource_paths "6fa459ea"
                Checkpoints.train_rf) as Hin
      by (simpl; apply list_elem_of_here).
  split; [exact Hst|]. split; [exact Hin|].
  exact (proj1 (rf_checkpoints_refuse_existing_path Examples.resource_paths
                  "6fa459ea" Checkpoints.train_rf _ "training table of this run"
                  Inputs.persisted_tables Hst Hin)).
Defined.

(** ** Which draw becomes the run hash *)
Section FirstFreshDraw.
Import RandomForest.
Context {V : Type}.
Implicit Types rf_runs : gmap string V.

Lemma regenerate_first_fresh (uuid4 : nat -> string) rf_runs (fuel : nat) :
  forall draws run_hash h d,
    regenerate fuel uuid4 draws run_hash rf_runs = Some (h, d) <->
    ((run_hash ∉ dom rf_runs) /\ h = run_hash /\ d = draws)
    \/ (run_hash ∈ dom rf_runs
        /\ exists k, (k < fuel)%nat /\ d = S (draws + k)
             /\ h = first8 (uuid4 (draws + k)%nat)
             /\ (h ∉ dom rf_runs)
             /\ forall j, (j < k)%nat -> first8 (uuid4 (draws + j)%nat) ∈ dom rf_runs).
Proof.
  induction fuel as [|fuel IH]; intros draws run_hash h d; simpl;
    case_bool_decide as Hin.
  - split; [discriminate|]. intros [[? _]|[_ (k & ? & _)]]; [done|lia].
  - split.
    + intros [= <- <-]. by left.
    + intros [(_ & -> & ->)|[? _]]; done.
  - rewrite IH. split.
    + intros [(Hfresh & -> & ->)|(Hnext & k & Hk & -> & -> & Hfresh & Hbefore)];
        right; (split; [done|]).
      * exists 0%nat. rewrite Nat.add_0_r. repeat split; try done; try lia.
      * exists (S k). rewrite <- Nat.add_succ_comm.
        repeat split; try done; try lia.
        intros [|j] Hj; [by rewrite Nat.add_0_r|].
        rewrite <- Nat.add_succ_comm. apply Hbefore. lia.
    + intros [[? _]|(_ & k & Hk & -> & -> & Hfresh & Hbefore)]; [done|].
      destruct k as [|k].
      * left. rewrite Nat.add_0_r in *. done.
      * right. split; [rewrite <- (Nat.add_0_r draws); apply Hbefore; lia|].
        exists k. rewrite <- Nat.add_succ_comm in *.
        repeat split; try done; try lia.
        intros j Hj. specialize (Hbefore (S j)).
        rewrite <- Nat.add_succ_comm in Hbefore. apply Hbefore. lia.
  - split.
    + intros [= <- <-]. by left.
    + intros [(_ & -> & ->)|[? _]]; done.
Qed.

(** X8: the run hash is the first fresh draw.  The loop ends with
    hash [h] after [d] calls of [uuid.uuid4()] exactly when [h] is the
    prefix of the [d]-th draw, is not a key, and every earlier draw
    was one; no draw is made beyond the one that is kept.  When there
    is no run-hash file the very first draw is kept. *)
Theorem new_run_hash_is_first_fresh_draw (uuid4 : nat -> string)
    (file : option (gmap string V)) (fuel : nat) (h : string) (d : nat) :
  (new_run_hash fuel uuid4 (get_rf_runs file) = Some (h, d) <->
   exists k, (k <= fuel)%nat /\ d = S k /\ h = first8 (uuid4 k)
             /\ (h ∉ dom (get_rf_runs file))
             /\ forall j, (j < k)%nat -> first8 (uuid4 j) ∈ dom (get_rf_runs file))
  /\ new_run_hash fuel uuid4 (get_rf_runs (None : option (gmap string V)))
     = Some (first8 (uuid4 0%nat), 1%nat).
Proof.
  split.
  - unfold new_run_hash. rewrite regenerate_first_fresh. split.
    + intros [(Hfresh & -> & ->)|(Hfirst & k & Hk & -> & -> & Hfresh & Hbefore)].
      * exists 0%nat. repeat split; try done; lia.
      * exists (S k). repeat split; try done; try lia.
        intros [|j] Hj; [done|]. apply (Hbefore j). lia.
    + intros (k & Hk & -> & -> & Hfresh & Hbefore). destruct k as [|k].
      * by left.
      * right. split; [apply Hbefore; lia|].
        exists k. repeat split; try done; try lia.
        intros j Hj. apply (Hbefore (S j)). lia.
  - unfold new_run_hash, get_rf_runs.
    destruct fuel; simpl; rewrite bool_decide_eq_false_2; try done;
      rewrite dom_empty_L; apply not_elem_of_empty.
Qed.

End FirstFreshDraw.

(** ** Relatedness sets and the relationship filters built on them *)
Section RelatednessSets.
Import Hail SampleQC SampleQCTables.

Lemma collect_as_set_elem (x : option string) (acc : gset string) (r : string) :
  r ∈ collect_as_set x acc <-> x = Some r \/ r ∈ acc.
Proof.
  destruct x as [v|]; simpl.
  - rewrite elem_of_union, elem_of_singleton. split.
    + intros [->|Hr]; [by left | by right].
    + intros [[= ->]|Hr]; [by left | by right].
  - split; [by right|]. by intros [?|?].
Qed.

(** A relationship is in the set of a sample exactly when the grouped
    rows hold it for that sample. *)
Lemma group_relationships_elem (rows : list (string * option string))
    (sample r : string) :
  (exists rs, group_relationships rows !! sample = Some rs /\ r ∈ rs)
  <-> (sample, Some r) ∈ rows.
Proof.
  induction rows as [|[s0 x0] rows IH]; simpl.
  - rewrite elem_of_nil. split; [|done]. intros (rs & Hrs & _).
    by rewrite lookup_empty in Hrs.
  - rewrite elem_of_cons, <- IH. clear IH.
    fold (group_relationships rows).
    destruct (decide (s0 = sample)) as [->|Hne].
    + rewrite lookup_insert_eq. split.
      * intros (rs & [= <-] & Hr). apply collect_as_set_elem in Hr as [->|Hr];
          [by left|right].
        destruct (group_relationships rows !! sample) as [rs|]; simpl in Hr;
          [by exists rs | by apply not_elem_of_empty in Hr].
      * intros [[= <-]|(rs & Hrs & Hr)]; eexists; (split; [reflexivity|]);
          apply collect_as_set_elem; [by left|right]. by rewrite Hrs.
    + rewrite lookup_insert_ne by done. split; [by right|].
      intros [[= ? _]|?]; done.
Qed.

(** A sample is a key exactly when some grouped row is about it. *)
Lemma group_relationships_key (rows : list (string * option string))
    (sample : string) :
  is_Some (group_relationships rows !! sample)
  <-> exists x, (sample, x) ∈ rows.
Proof.
  induction rows as [|[s0 x0] rows IH]; simpl.
  - rewrite lookup_empty. split; [by intros [? ?]|].
    intros [x Hx]. by apply elem_of_nil in Hx.
  - fold (group_relationships rows).
    destruct (decide (s0 = sample)) as [->|Hne].
    + rewrite lookup_insert_eq. split; [|by eexists].
      intros _. exists x0. apply list_elem_of_here.
    + rewrite lookup_insert_ne, IH by done. split.
      * intros [x Hx]. exists x. by right.
      * intros [x Hx]. apply elem_of_cons in Hx as [[= ? _]|Hx]; [done|by exists x].
Qed.

Lemma holds_hl_ne (x : option string) (u : string) :
  holds (hl_ne x (Some u)) = true <-> exists r, x = Some r /\ r <> u.
Proof.
  destruct x as [r|]; simpl; [|naive_solver].
  case_bool_decide; naive_solver.
Qed.

(** The rows [get_relatedness_set_ht] groups. *)
Lemma relatedness_union_elem (UNRELATED : string) (relatedness_ht : list pair)
    (sample : string) (x : option string) :
  (sample, x)
    ∈ ((fun p => (i_s p, relationship p))
       <$> filter (fun p => holds (hl_ne (relationship p) (Some UNRELATED)) = true)
                  relatedness_ht)
      ++ ((fun p => (j_s p, relationship p))
          <$> filter (fun p => holds (hl_ne (relationship p) (Some UNRELATED)) = true)
                     relatedness_ht)
  <-> exists p r, p ∈ relatedness_ht /\ relationship p = Some r /\ x = Some r
                  /\ r <> UNRELATED /\ (i_s p = sample \/ j_s p = sample).
Proof.
  rewrite elem_of_app, !list_elem_of_fmap. split.
  - intros [(p & [= -> ->] & Hp)|(p & [= -> ->] & Hp)];
      apply list_elem_of_filter in Hp as [Hrel Hp];
      apply holds_hl_ne in Hrel as (r & Hr & Hne);
      exists p, r; naive_solver.
  - intros (p & r & Hp & Hr & -> & Hne & [<-|<-]); [left|right];
      (exists p; split; [by rewrite Hr|]);
      apply list_elem_of_filter; (split; [|done]);
      apply holds_hl_ne; by exists r.
Qed.

(** Membership in the set of a sample. *)
Lemma get_relatedness_set_ht_elem (UNRELATED : string)
    (relatedness_ht : list pair) (sample r : string) :
  (exists rs, get_relatedness_set_ht UNRELATED relatedness_ht !! sample = Some rs
              /\ r ∈ rs)
  <-> r <> UNRELATED
      /\ exists p, p ∈ relatedness_ht /\ relationship p = Some r
                   /\ (i_s p = sample \/ j_s p = sample).
Proof.
  unfold get_relatedness_set_ht.
  rewrite group_relationships_elem, relatedness_union_elem. naive_solver.
Qed.

(** X9: [get_relatedness_set_ht] gives every sample the set of the
    relationships, other than [UNRELATED], of the pairs it is part
    of, on either side.  A sample with no such pair has no row; no
    set is empty and none holds [UNRELATED]. *)
Theorem get_relatedness_set_ht_spec (UNRELATED : string)
    (relatedness_ht : list pair) (sample : string) :
  (forall r,
     (exists rs, get_relatedness_set_ht UNRELATED relatedness_ht !! sample = Some rs
                 /\ r ∈ rs)
     <-> r <> UNRELATED
         /\ exists p, p ∈ relatedness_ht /\ relationship p = Some r
                      /\ (i_s p = sample \/ j_s p = sample))
  /\ (forall rs,
        get_relatedness_set_ht UNRELATED relatedness_ht !! sample = Some rs ->
        rs <> ∅ /\ UNRELATED ∉ rs)
  /\ (get_relatedness_set_ht UNRELATED relatedness_ht !! sample = None
      <-> forall p r, p ∈ relatedness_ht -> relationship p = Some r ->
                      i_s p = sample \/ j_s p = sample -> r = UNRELATED).
Proof.
  pose proof (get_relatedness_set_ht_elem UNRELATED relatedness_ht sample) as Helem.
  split; [exact Helem|]. split.
  - intros rs Hrs.
    assert (is_Some (get_relatedness_set_ht UNRELATED relatedness_ht !! sample))
      as Hkey by (by eexists).
    unfold get_relatedness_set_ht in Hkey.
    apply group_relationships_key in Hkey as [x Hx].
    apply relatedness_union_elem in Hx as (p & r & Hp & Hr & -> & Hne & Hside).
    split.
    + assert (r ∈ rs) as Hin; [|set_solver].
      destruct (proj2 (Helem r)) as (rs' & Hrs' & Hin); [naive_solver|].
      congruence.
    + intros Hun. destruct (proj1 (Helem UNRELATED)) as [Hne' _]; [by exists rs|].
      done.
  - unfold get_relatedness_set_ht.
    rewrite eq_None_not_Some, group_relationships_key. split.
    + intros Hnone p r Hp Hr Hside. destruct (decide (r = UNRELATED)); [done|].
      exfalso. apply Hnone. exists (Some r). apply relatedness_union_elem.
      naive_solver.
    + intros Hall [x Hx].
      apply relatedness_union_elem in Hx as (p & r & Hp & Hr & -> & Hne & Hside).
      naive_solver.
Qed.

End RelatednessSets.

(** ** The sample filters of the metadata table *)
Section SampleFilters.
Import Hail SampleQC SampleQCTables.

Lemma hard_filtered_value (r : joined_sample) :
  hard_filtered r
  = Some (match hard_filters r with
          | Some filters => bool_decide (0 < size filters)%nat
          | None => false
          end).
Proof.
  unfold hard_filtered, hl_is_defined, len_gt_0.
  destruct (hard_filters r) as [filters|]; simpl; [|reflexivity].
  by destruct (bool_decide (0 < size filters)%nat).
Qed.

(** X10: [hard_filtered] and the boolean of each hard filter are
    never missing, also for a sample the hard-filter table does not
    have; [hard_filtered] is true exactly when the boolean of some
    filter is. *)
Theorem hard_filtered_spec (r : joined_sample) :
  (exists b, hard_filtered r = Some b)
  /\ (forall v, exists b, hard_filter_flag v r = Some b)
  /\ (hard_filtered r = Some true <-> exists v, hard_filter_flag v r = Some true)
  /\ (hard_filters r = None ->
      hard_filtered r = Some false /\ forall v, hard_filter_flag v r = Some false).
Proof.
  rewrite hard_filtered_value. unfold hard_filter_flag, hl_is_defined, contains.
  destruct (hard_filters r) as [filters|]; simpl.
  - split; [by eexists|]. split; [by eexists|]. split; [|done].
    split.
    + intros [= Hsize]. apply bool_decide_eq_true_1 in Hsize.
      apply size_pos_elem_of in Hsize as [v Hv]. exists v.
      by rewrite bool_decide_eq_true_2.
    + intros [v [= Hv]]. apply bool_decide_eq_true_1 in Hv.
      rewrite bool_decide_eq_true_2; [done|].
      destruct (size filters) eqn:Hsize; [|lia].
      apply size_empty_inv in Hsize. set_solver.
  - split; [by eexists|]. split; [by eexists|]. split; [|done].
    split; [discriminate|]. intros [v [=]].
Qed.

Lemma hl_and_true (a b : option bool) :
  hl_and a b = Some true <-> a = Some true /\ b = Some true.
Proof. destruct a as [[|]|], b as [[|]|]; simpl; naive_solver. Qed.

Lemma len_eq_0_true (x : option (gset string)) :
  len_eq_0 x = Some true <-> x = Some ∅.
Proof.
  destruct x as [filters|]; simpl; [|naive_solver]. split.
  - intros [= Hsize]. apply bool_decide_eq_true_1 in Hsize.
    apply size_empty_inv in Hsize. f_equal. by apply leibniz_equiv.
  - intros [= ->]. by rewrite bool_decide_eq_true_2.
Qed.

(** X11: a hard-filtered sample is never released: its relatedness
    booleans are missing, yet [high_quality] and [release] are false,
    not missing.  A sample is released exactly when it is releasable,
    not hard-filtered, free of QC-metric filters, not excluded and
    not among the related samples to drop. *)
Theorem release_spec (release_to_drop : gset string) (r : joined_sample) :
  (hard_filtered r = Some true ->
   related_flag release_to_drop r = None
   /\ high_quality r = Some false
   /\ release release_to_drop r = Some false)
  /\ (release release_to_drop r = Some true <->
      releasable r = Some true
      /\ hard_filtered r = Some false
      /\ qc_metrics_filters r = Some ∅
      /\ exclude r = Some false
      /\ s r ∉ release_to_drop).
Proof.
  unfold release, high_quality, related_flag.
  rewrite hard_filtered_value.
  set (hf := match hard_filters r with
             | Some filters => bool_decide (0 < size filters)%nat
             | None => false
             end).
  split.
  - intros [= ->]. simpl. split; [done|]. split.
    + by destruct (len_eq_0 (qc_metrics_filters r)) as [[|]|].
    + destruct (releasable r) as [[|]|],
        (len_eq_0 (qc_metrics_filters r)) as [[|]|],
        (exclude r) as [[|]|]; reflexivity.
  - rewrite !hl_and_true, len_eq_0_true.
    destruct hf; simpl.
    + split; [intros [[[_ [[=] _]] _] _] | intros (_ & [=] & _)].
    + destruct (exclude r) as [[|]|]; simpl;
        case_bool_decide; simpl; naive_solver.
Qed.

(** X12: the relationship booleans of the metadata table, built from
    the relatedness sets.  For a sample that is not hard-filtered the
    boolean of a relationship is never missing, and it is true
    exactly when the sample is among the samples to drop and is part
    of a pair with that relationship; it is then also flagged as
    related.  For a hard-filtered sample it is missing. *)
Theorem relationship_flag_spec (UNRELATED : string) (relatedness_ht : list pair)
    (to_drop : gset string) (relationship_tested : string) (r : joined_sample) :
  let flag :=
    relationship_flag (get_relatedness_set_ht UNRELATED relatedness_ht)
                      to_drop relationship_tested r in
  (hard_filtered r = Some true -> flag = None)
  /\ (hard_filtered r = Some false ->
      (exists b, flag = Some b)
      /\ (flag = Some true <->
          s r ∈ to_drop /\ relationship_tested <> UNRELATED
          /\ exists p, p ∈ relatedness_ht
                       /\ relationship p = Some relationship_tested
                       /\ (i_s p = s r \/ j_s p = s r))
      /\ (flag = Some true -> related_flag to_drop r = Some true)).
Proof.
  cbv zeta. unfold relationship_flag, related_flag.
  split; [by intros ->|]. intros ->.
  pose proof (get_relatedness_set_ht_elem UNRELATED relatedness_ht (s r)
                relationship_tested) as Helem.
  unfold dropped_relationships. case_bool_decide as Hdrop.
  - destruct (get_relatedness_set_ht UNRELATED relatedness_ht !! s r)
      as [rs|] eqn:Hrs.
    + change (get_relationship_filter_expr (Some false) relationship_tested (Some rs))
        with (Some (bool_decide (relationship_tested ∈ rs))).
      split; [by eexists|]. split.
      * rewrite <- Helem. split.
        -- intros [= Hin]. apply bool_decide_eq_true_1 in Hin.
           split; [done|]. by exists rs.
        -- intros (_ & rs' & [= <-] & Hin). by rewrite bool_decide_eq_true_2.
      * intros _. reflexivity.
    + change (get_relationship_filter_expr (Some false) relationship_tested None)
        with (Some false).
      split; [by eexists|]. split; [|discriminate].
      split; [discriminate|]. intros (_ & Hrel).
      apply Helem in Hrel as (rs & [=] & _).
  - change (get_relationship_filter_expr (Some false) relationship_tested None)
      with (Some false).
    split; [by eexists|]. split; [|discriminate].
    split; [discriminate|]. by intros [? _].
Qed.

End SampleFilters.

(** ** Sample rankings *)
Section SampleRankings.
Import Hail SampleQC SampleQCTables.
Context {D : Type}.
Implicit Types (r x y : project_row D).










Variable dp_leb : D -> D -> bool.
Hypothesis dp_leb_total : forall a b, dp_leb a b = true \/ dp_leb b a = true.
Hypothesis dp_leb_trans :
  forall a b c, dp_leb a b = true -> dp_leb b c = true -> dp_leb a c = true.





End SampleRankings.


(** ** The re-labelling loop of the population assignment *)
Section AssignPopsLoop.
Import Hail SampleQC SampleQCTables.

Lemma index_by_key_aligned (pop_ht : list pop_row) (rows : list scores_row) :
  (fun r => (pop_s r, pop_training_pop r)) <$> pop_ht
  = (fun r => (scores_s r, training_pop r)) <$> rows ->
  NoDup (scores_s <$> rows) ->
  Forall2 (found_in pop_ht) rows pop_ht.
Proof.
  intros Heq Hnodup.
  assert (forall i pr, pop_ht !! i = Some pr ->
            exists r, rows !! i = Some r /\ pop_s pr = scores_s r
                      /\ pop_training_pop pr = training_pop r) as Hrow.
  { intros i pr Hpr.
    assert (((fun r => (pop_s r, pop_training_pop r)) <$> pop_ht) !! i
            = Some (pop_s pr, pop_training_pop pr)) as Hi
        by (by rewrite list_lookup_fmap, Hpr).
    rewrite Heq, list_lookup_fmap in Hi.
    destruct (rows !! i) as [r|]; [|discriminate].
    injection Hi as Hs Ht. by exists r. }
  apply Forall2_same_length_lookup_2.
  - apply (f_equal length) in Heq. by rewrite !length_fmap in Heq.
  - intros i r pr Hr Hpr.
    destruct (Hrow i pr Hpr) as (r' & Hr' & Hs & Ht).
    rewrite Hr in Hr'. injection Hr' as <-. split; [|done].
    unfold index_by_key.
    assert (list_find (fun x => pop_s x = scores_s r) pop_ht = Some (i, pr)) as ->;
      [|done].
    apply list_find_Some. split; [done|]. split; [done|].
    intros j pr' Hpr' Hlt Hkey.
    destruct (Hrow j pr' Hpr') as (r'' & Hr'' & Hs'' & _).
    assert (i = j); [|lia].
    apply (NoDup_lookup (scores_s <$> rows) i j (scores_s r)); [done| |].
    + by rewrite list_lookup_fmap, Hr.
    + rewrite list_lookup_fmap, Hr''. simpl. congruence.
Qed.

(** One pass over the scores table: the labels that survive and the
    samples counted as mislabeled are among the labels there were. *)
Lemma relabel_count (whole : list pop_row) (rows : list scores_row)
    (pop_ht : list pop_row) :
  Forall2 (found_in whole) rows pop_ht ->
  (n_training (relabel whole <$> rows)
   + length (filter (fun r => holds (hl_ne (pop_training_pop r) (pop r)) = true)
                    pop_ht)
   <= n_training rows)%nat.
Proof.
  unfold n_training.
  induction 1 as [|r pr rows pop_ht [Hfound Htp] _ IH]; [simpl; lia|].
  rewrite fmap_cons, !filter_cons.
  assert (training_pop (relabel whole r)
          = hl_or_missing (hl_eq (training_pop r) (pop pr)) (training_pop r)) as Hnew.
  { unfold relabel. simpl. rewrite Hfound. simpl. by rewrite Htp. }
  rewrite Hnew, Htp.
  destruct (training_pop r) as [a|], (pop pr) as [b|]; simpl;
    repeat case_bool_decide; repeat case_decide; simpl;
    try lia; try congruence;
    try (match goal with H : ~ is_Some (Some _) |- _ => destruct H; by eexists end);
    try (match goal with H : is_Some None |- _ => by destruct H end).
Qed.

Lemma relabel_keeps_keys (pop_ht : list pop_row) (rows : list scores_row) :
  scores_s <$> (relabel pop_ht <$> rows) = scores_s <$> rows.
Proof. rewrite <- list_fmap_compose. by apply list_fmap_ext. Qed.

Lemma relabel_only_removes (pop_ht : list pop_row) (r : scores_row) :
  training_pop (relabel pop_ht r) = training_pop r
  \/ training_pop (relabel pop_ht r) = None.
Proof.
  unfold relabel, hl_or_missing. simpl.
  destruct (hl_eq _ _) as [[|]|]; auto.
Qed.

Variable assign_population_pcs : nat -> list scores_row -> list pop_row.
Variable max_mislabeled_training_samples : Z.
Hypothesis Hmax : 0 <= max_mislabeled_training_samples.
Hypothesis Hcontract : keeps_known_column assign_population_pcs.

Lemma relabel_loop_ends (fuel : nat) :
  forall calls iter rows pop_ht,
    (fun r => (pop_s r, pop_training_pop r)) <$> pop_ht
    = (fun r => (scores_s r, training_pop r)) <$> rows ->
    NoDup (scores_s <$> rows) ->
    (n_training rows <= fuel)%nat ->
    exists rows' pop_ht' iter',
      relabel_loop assign_population_pcs max_mislabeled_training_samples
                   fuel calls iter rows pop_ht = Some (rows', pop_ht', iter')
      /\ n_mislabeled_samples pop_ht' <= max_mislabeled_training_samples
      /\ (iter <= iter')%nat
      /\ (iter' - iter + n_training rows' <= n_training rows)%nat
      /\ scores_s <$> rows' = scores_s <$> rows
      /\ Forall2 (fun r' r => training_pop r' = training_pop r
                              \/ training_pop r' = None) rows' rows.
Proof.
  induction fuel as [|fuel IH]; intros calls iter rows pop_ht Heq Hnodup Hfuel;
    pose proof (relabel_count pop_ht rows pop_ht
                  (index_by_key_aligned _ _ Heq Hnodup)) as Hcount;
    simpl; unfold n_mislabeled_samples in *;
    destruct (Z.ltb_spec max_mislabeled_training_samples
                (Z.of_nat (length (filter
                   (fun r => holds (hl_ne (pop_training_pop r) (pop r)) = true)
                   pop_ht)))) as [Hmore|Hdone];
    try lia.
  - exists rows, pop_ht, iter. repeat split; try done; try lia.
    apply Forall2_same_length_lookup_2; [done|]. intros i x y Hx Hy. left. congruence.
  - destruct (IH (S calls) (S iter) (relabel pop_ht <$> rows)
                (assign_population_pcs calls (relabel pop_ht <$> rows)))
      as (rows' & pop_ht' & iter' & Hloop & Hn & Hiter & Hlabels & Hkeys & Hremoved).
    + apply Hcontract.
    + by rewrite relabel_keeps_keys.
    + lia.
    + exists rows', pop_ht', iter'. split; [exact Hloop|].
      split; [exact Hn|]. split; [lia|]. split; [lia|].
      split; [by rewrite Hkeys, relabel_keeps_keys|].
      apply Forall2_same_length_lookup_2.
      * apply Forall2_length in Hremoved. by rewrite length_fmap in Hremoved.
      * intros i r' r Hr' Hr.
        assert ((relabel pop_ht <$> rows) !! i = Some (relabel pop_ht r)) as Hmid
            by (by rewrite list_lookup_fmap, Hr).
        pose proof (Forall2_lookup_lr _ _ _ _ _ _ Hremoved Hr' Hmid) as [Hsame|Hnone];
          [|by right].
        rewrite Hsame. apply relabel_only_removes.
  - exists rows, pop_ht, iter. repeat split; try done; try lia.
    apply Forall2_same_length_lookup_2; [done|]. intros i x y Hx Hy. left. congruence.
Qed.

(** X14: the re-labelling loop of [assign_pops] ends whatever the
    classifier predicts, as long as the allowed number of mislabeled
    training samples is not negative: every pass takes the label off
    at least one training sample.  It ends with at most the allowed
    number of mislabeled samples, after at most one call of the
    classifier per training sample beyond the first; it removes
    labels and never adds or changes one. *)
Theorem assign_pops_ends (rows : list scores_row) (fuel : nat) :
  NoDup (scores_s <$> rows) ->
  (n_training rows <= fuel)%nat ->
  exists rows' pop_ht' known_pop_removal_iterations,
    assign_pops assign_population_pcs max_mislabeled_training_samples fuel rows
    = Some (rows', pop_ht', known_pop_removal_iterations)
    /\ n_mislabeled_samples pop_ht' <= max_mislabeled_training_samples
    /\ (1 <= known_pop_removal_iterations <= 1 + n_training rows)%nat
    /\ (known_pop_removal_iterations - 1 + n_training rows' <= n_training rows)%nat
    /\ scores_s <$> rows' = scores_s <$> rows
    /\ Forall2 (fun r' r => training_pop r' = training_pop r
                            \/ training_pop r' = None) rows' rows.
Proof.
  intros Hnodup Hfuel. unfold assign_pops.
  destruct (relabel_loop_ends fuel 1 1 rows (assign_population_pcs 0 rows)
              (Hcontract 0%nat rows) Hnodup Hfuel)
    as (rows' & pop_ht' & iter' & Hloop & Hn & Hiter & Hlabels & Hkeys & Hremoved).
  exists rows', pop_ht', iter'. repeat split; try done; lia.
Qed.

End AssignPopsLoop.


Lemma assign_pops_ends_witness :
  0 <= 0
  /\ SampleQCTables.keeps_known_column Inputs.all_nfe
  /\ NoDup (SampleQCTables.scores_s <$> Inputs.three_scores)
  /\ (SampleQCTables.n_training Inputs.three_scores <= 2)%nat
  /\ exists rows' pop_ht' known_pop_removal_iterations,
       SampleQCTables.assign_pops Inputs.all_nfe 0 2 Inputs.three_scores
       = Some (rows', pop_ht', known_pop_removal_iterations)
       /\ SampleQCTables.n_mislabeled_samples pop_ht' <= 0
       /\ (1 <= known_pop_removal_iterations
           <= 1 + SampleQCTables.n_training Inputs.three_scores)%nat
       /\ (known_pop_removal_iterations - 1 + SampleQCTables.n_training rows'
           <= SampleQCTables.n_training Inputs.three_scores)%nat
       /\ SampleQCTables.scores_s <$> rows'
          = SampleQCTables.scores_s <$> Inputs.three_scores
       /\ Forall2 (fun r' r =>
                     SampleQCTables.training_pop r' = SampleQCTables.training_pop r
                     \/ SampleQCTables.training_pop r' = None)
                  rows' Inputs.three_scores.
Proof.
  assert (0 <= 0) as Hmax by lia.
  assert (SampleQCTables.keeps_known_column Inputs.all_nfe) as Hcontract.
  { intros calls rows. unfold Inputs.all_nfe.
    rewrite <- list_fmap_compose. reflexivity. }
  assert (NoDup (SampleQCTables.scores_s <$> Inputs.three_scores)) as Hnodup
      by (apply (bool_decide_unpack _); vm_compute; exact I).
  assert (SampleQCTables.n_training Inputs.three_scores <= 2)%nat as Hfuel
      by (vm_compute; lia).
  split; [exact Hmax|]. split; [exact Hcontract|]. split; [exact Hnodup|].
  split; [exact Hfuel|].
  exact (assign_pops_ends Inputs.all_nfe 0 Hmax Hcontract Inputs.three_scores 2
           Hnodup Hfuel).
Defined.

(** ** The allele counts of the QC samples *)
Section QcSampleCounts.
Import Hail QcAnnotations QcAlleleCounts.

Lemma agg_filter_sum_mono (c1 c2 : gt_entry -> option bool) (entries : list gt_entry) :
  (forall e, holds (c1 e) = true -> holds (c2 e) = true) ->
  0 <= agg_filter_sum c1 entries <= agg_filter_sum c2 entries.
Proof.
  intros Himp. unfold agg_filter_sum.
  induction entries as [|e entries IH]; simpl; [lia|].
  assert (0 <= default 0 (n_alt_alleles <$> GT e)) as Hpos
      by (destruct (GT e); simpl; unfold n_alt_alleles; lia).
  specialize (Himp e).
  destruct (holds (c1 e)); [rewrite Himp by done|destruct (holds (c2 e))]; lia.
Qed.

Lemma holds_hl_and (a b : option bool) :
  holds (hl_and a b) = true -> holds a = true /\ holds b = true.
Proof. by destruct a as [[|]|], b as [[|]|]. Qed.

(** X15: at every site the six counts of [generate_ac] are ordered
    as the sample sets they are taken over: no count is negative, an
    adj count is at most the raw count of the same samples, and the
    counts over the unrelated and over the release samples are at
    most those over all QC samples.  So in the table for the random
    forest [ac] is at most [ac_raw], and a site kept with group adj
    is kept with group raw. *)
Theorem generate_ac_counts_ordered (entries : list gt_entry) :
  let r := generate_ac_row entries in
  0 <= ac_qc_samples_unrelated_adj r <= ac_qc_samples_unrelated_raw r
  /\ ac_qc_samples_unrelated_raw r <= ac_qc_samples_raw r
  /\ ac_qc_samples_unrelated_adj r <= ac_qc_samples_adj r
  /\ 0 <= ac_release_samples_adj r <= ac_release_samples_raw r
  /\ ac_release_samples_raw r <= ac_qc_samples_raw r
  /\ ac_release_samples_adj r <= ac_qc_samples_adj r
  /\ 0 <= ac_qc_samples_adj r <= ac_qc_samples_raw r
  /\ rf_ac r <= rf_ac_raw r
  /\ (rf_keeps true r = true -> rf_keeps false r = true).
Proof.
  intros r. subst r. unfold rf_ac, rf_ac_raw, rf_keeps, ac_qc_samples, generate_ac_row.
  simpl.
  set (es := filter _ entries).
  pose proof (agg_filter_sum_mono
                (fun e => hl_and (hl_not (all_samples_related (meta e))) (adj e))
                (fun e => hl_not (all_samples_related (meta e))) es
                (fun e H => proj1 (holds_hl_and _ _ H))) as H1.
  pose proof (agg_filter_sum_mono
                (fun e => hl_not (all_samples_related (meta e)))
                (fun _ => Some true) es (fun _ _ => eq_refl)) as H2.
  pose proof (agg_filter_sum_mono
                (fun e => hl_and (hl_not (all_samples_related (meta e))) (adj e))
                (fun e => adj e) es
                (fun e H => proj2 (holds_hl_and _ _ H))) as H3.
  pose proof (agg_filter_sum_mono
                (fun e => hl_and (meta_release (meta e)) (adj e))
                (fun e => meta_release (meta e)) es
                (fun e H => proj1 (holds_hl_and _ _ H))) as H4.
  pose proof (agg_filter_sum_mono
                (fun e => meta_release (meta e))
                (fun _ => Some true) es (fun _ _ => eq_refl)) as H5.
  pose proof (agg_filter_sum_mono
                (fun e => hl_and (meta_release (meta e)) (adj e))
                (fun e => adj e) es
                (fun e H => proj2 (holds_hl_and _ _ H))) as H6.
  pose proof (agg_filter_sum_mono
                (fun e => adj e) (fun _ => Some true) es (fun _ _ => eq_refl)) as H7.
  repeat split; try lia.
Qed.

End QcSampleCounts.

(** ** The allele counts of the info table as sums over the samples *)
Section InfoCountsAsSums.
Import QcAnnotations Sums InfoSums.
Variable get_adj_expr :
  option call -> option Z -> option Z -> option (list Z) -> option bool.

Lemma grp_ac_foldl_sum (ai : nat) (k : option bool) (es : list entry) :
  forall d,
    get (foldl (grp_ac_step get_adj_expr ai) d es) k 0
    = get d k 0 + group_sum get_adj_expr k ai es.
Proof.
  unfold group_sum.
  induction es as [|e es IH]; intros d; simpl foldl.
  - simpl. lia.
  - rewrite IH, fmap_cons, Zsum_cons.
    unfold grp_ac_step, adj_dosage.
    destruct (LA_contains e ai) as [[|]|].
    + rewrite get_insert.
      case_decide; case_bool_decide; try (subst k; lia); try lia;
        intuition congruence.
    + rewrite bool_decide_eq_false_2 by (intros [? _]; discriminate). lia.
    + rewrite bool_decide_eq_false_2 by (intros [? _]; discriminate). lia.
Qed.

Lemma group_sum_perm (k : option bool) (ai : nat) (es es' : list entry) :
  es ≡ₚ es' -> group_sum get_adj_expr k ai es = group_sum get_adj_expr k ai es'.
Proof.
  unfold group_sum.
  induction 1 as [|e es es' _ IH|e e' es|es es' es'' _ IH1 _ IH2];
    rewrite ?fmap_cons, ?Zsum_cons; lia.
Qed.

Lemma grp_ac_expr_lookup (r : row) (i : nat) :
  (i < length (alleles r) - 1)%nat ->
  grp_ac_expr get_adj_expr r !! i
  = Some (foldl (grp_ac_step get_adj_expr (S i)) ∅ (entries r)).
Proof.
  intros Hi. unfold grp_ac_expr, alt_alleles_range_array.
  rewrite list_lookup_fmap, lookup_seq_lt by done. reflexivity.
Qed.

(** X16: for each alternate allele of a row, [AC] is the 32-bit
    conversion of the sum, over the samples that have the allele among
    their local alleles and whose adj status is true, of the number
    of copies of the allele in their call; [AC_raw] adds to it the
    same sum over the samples whose adj status is false.  A sample
    whose adj status is missing is counted in neither. *)
Theorem info_expr_counts_are_sums (r : row) (i : nat) :
  (i < length (alleles r) - 1)%nat ->
  AC (info_expr get_adj_expr r) !! i
  = Some (hl_int32 (group_sum get_adj_expr (Some true) (S i) (entries r)))
  /\ AC_raw (info_expr get_adj_expr r) !! i
     = Some (hl_int32 (group_sum get_adj_expr (Some true) (S i) (entries r)
                       + group_sum get_adj_expr (Some false) (S i) (entries r))).
Proof.
  intros Hi. unfold info_expr. simpl.
  rewrite !list_lookup_fmap, grp_ac_expr_lookup by done. simpl.
  rewrite !grp_ac_foldl_sum. unfold get. rewrite !lookup_empty. simpl.
  by rewrite !Z.add_0_l.
Qed.

(** X17: the allele counts of a row do not depend on the order in
    which the samples are aggregated. *)
Theorem info_expr_order_irrelevant (r r' : row) :
  alleles r = alleles r' ->
  entries r ≡ₚ entries r' ->
  info_expr get_adj_expr r = info_expr get_adj_expr r'.
Proof.
  intros Hals Hperm.
  assert (forall k, (fun i : gmap (option bool) Z => get i k 0)
                    <$> grp_ac_expr get_adj_expr r
                    = (fun i : gmap (option bool) Z => get i k 0)
                    <$> grp_ac_expr get_adj_expr r') as Hget.
  { intros k. unfold grp_ac_expr, alt_alleles_range_array.
    rewrite <- !list_fmap_compose, Hals. apply list_fmap_ext.
    intros _ ai _. simpl. rewrite !grp_ac_foldl_sum.
    by rewrite (group_sum_perm k ai _ _ Hperm). }
  unfold info_expr. f_equal.
  - apply list_eq. intros i. rewrite !list_lookup_fmap.
    pose proof (f_equal (fun l => l !! i) (Hget (Some true))) as Ht.
    pose proof (f_equal (fun l => l !! i) (Hget (Some false))) as Hf.
    simpl in Ht, Hf. rewrite !list_lookup_fmap in Ht, Hf.
    destruct (grp_ac_expr get_adj_expr r !! i),
             (grp_ac_expr get_adj_expr r' !! i); simpl in *; congruence.
  - apply list_eq. intros i. rewrite !list_lookup_fmap.
    pose proof (f_equal (fun l => l !! i) (Hget (Some true))) as Ht.
    simpl in Ht. rewrite !list_lookup_fmap in Ht.
    destruct (grp_ac_expr get_adj_expr r !! i),
             (grp_ac_expr get_adj_expr r' !! i); simpl in *; congruence.
Qed.

End InfoCountsAsSums.


Lemma info_expr_counts_are_sums_witness :
  (0 < length (QcAnnotations.alleles QcAnnotations.four_samples) - 1)%nat
  /\ QcAnnotations.AC
       (QcAnnotations.info_expr QcAnnotations.adj_thresholds
          QcAnnotations.four_samples) !! 0%nat
     = Some (QcAnnotations.hl_int32
               (InfoSums.group_sum QcAnnotations.adj_thresholds (Some true) 1
                  (QcAnnotations.entries QcAnnotations.four_samples))).
Proof.
  assert (0 < length (QcAnnotations.alleles QcAnnotations.four_samples) - 1)%nat
    as Hi by (simpl; lia).
  split; [exact Hi|].
  exact (proj1 (info_expr_counts_are_sums QcAnnotations.adj_thresholds
                  QcAnnotations.four_samples 0 Hi)).
Defined.

Lemma info_expr_order_irrelevant_witness :
  QcAnnotations.alleles QcAnnotations.four_samples
  = QcAnnotations.alleles Inputs.four_samples_reversed
  /\ QcAnnotations.entries QcAnnotations.four_samples
     ≡ₚ QcAnnotations.entries Inputs.four_samples_reversed
  /\ QcAnnotations.info_expr QcAnnotations.adj_thresholds QcAnnotations.four_samples
     = QcAnnotations.info_expr QcAnnotations.adj_thresholds
         Inputs.four_samples_reversed.
Proof.
  assert (QcAnnotations.entries QcAnnotations.four_samples
          ≡ₚ QcAnnotations.entries Inputs.four_samples_reversed) as Hperm
      by exact (Permutation_rev (QcAnnotations.entries QcAnnotations.four_samples)).
  split; [reflexivity|]. split; [exact Hperm|].
  exact (info_expr_order_irrelevant QcAnnotations.adj_thresholds
           QcAnnotations.four_samples Inputs.four_samples_reversed eq_refl Hperm).
Defined.

(** ** The allele counts over the samples of the metadata table *)
Section CountsOverMetadata.
Import Hail QcAnnotations SampleQCTables QcAlleleCounts MetaColumns.
Variable related_samples_to_drop release_related_samples_to_drop : gset string.

Lemma agg_filter_sum_filter (P : gt_entry -> Prop) `{!forall e, Decision (P e)}
    (c : gt_entry -> option bool) (es : list gt_entry) :
  Forall (fun e => holds (c e) = true -> P e) es ->
  agg_filter_sum c (filter P es) = agg_filter_sum c es.
Proof.
  unfold agg_filter_sum.
  induction 1 as [|e es He _ IH]; [done|].
  rewrite filter_cons. case_decide as HP; simpl; rewrite IH; [done|].
  destruct (holds (c e)); [by destruct HP; apply He|done].
Qed.

Lemma agg_filter_sum_split (c c1 c2 : gt_entry -> option bool) (es : list gt_entry) :
  Forall (fun e => (holds (c e) = true ->
                    holds (c1 e) = negb (holds (c2 e)))
                   /\ (holds (c e) = false ->
                       holds (c1 e) = false /\ holds (c2 e) = false)) es ->
  agg_filter_sum c es = agg_filter_sum c1 es + agg_filter_sum c2 es.
Proof.
  unfold agg_filter_sum.
  induction 1 as [|e es [Ht Hf] _ IH]; [done|]. simpl. rewrite IH.
  destruct (holds (c e)).
  - rewrite (Ht eq_refl). destruct (holds (c2 e)); simpl; lia.
  - destruct (Hf eq_refl) as [-> ->]. lia.
Qed.

Lemma release_is_high_quality (r : joined_sample) :
  holds (release release_related_samples_to_drop r) = true ->
  holds (high_quality r) = true.
Proof.
  unfold release.
  destruct (releasable r) as [[|]|], (high_quality r) as [[|]|],
           (hl_not (exclude r)) as [[|]|],
           (hl_not (related_flag release_related_samples_to_drop r)) as [[|]|];
    done.
Qed.

Lemma high_quality_has_related_flag (r : joined_sample) :
  holds (high_quality r) = true ->
  related_flag related_samples_to_drop r
  = Some (bool_decide (s r ∈ related_samples_to_drop)).
Proof.
  unfold high_quality, related_flag.
  destruct (hard_filtered r) as [[|]|]; simpl;
    destruct (len_eq_0 (qc_metrics_filters r)) as [[|]|]; done.
Qed.

(** X18: with the metadata of [generate_metadata] as [mt.meta],
    keeping the high-quality samples only, as [generate_ac] does
    first, takes no release sample away, and the relatedness flag
    of every sample that is kept is defined.  So the raw count of
    the release samples is their count over all samples, and each
    of the two counts of the QC samples is the sum of the count of
    the unrelated samples and of the count of the related ones. *)
Theorem generate_ac_over_metadata
    (samples : list (option joined_sample * option call * option bool)) :
  let es := entry_of related_samples_to_drop release_related_samples_to_drop
            <$> samples in
  let qc := filter (fun e => holds (meta_high_quality (meta e)) = true) es in
  let r := generate_ac_row es in
  ac_release_samples_raw r = agg_filter_sum (fun e => meta_release (meta e)) es
  /\ ac_release_samples_adj r
     = agg_filter_sum (fun e => hl_and (meta_release (meta e)) (adj e)) es
  /\ ac_qc_samples_raw r
     = ac_qc_samples_unrelated_raw r
       + agg_filter_sum (fun e => all_samples_related (meta e)) qc
  /\ ac_qc_samples_adj r
     = ac_qc_samples_unrelated_adj r
       + agg_filter_sum (fun e => hl_and (all_samples_related (meta e)) (adj e)) qc.
Proof.
  intros es qc r. subst r. unfold generate_ac_row. simpl. fold qc.
  assert (Forall (fun e => holds (meta_release (meta e)) = true ->
                           holds (meta_high_quality (meta e)) = true) es) as Hrel.
  { apply Forall_fmap, Forall_forall. intros [[[r|] gt] a] _; simpl; [|done].
    apply release_is_high_quality. }
  assert (Forall (fun e => exists b, all_samples_related (meta e) = Some b) qc) as Hdef.
  { apply Forall_forall. intros e He.
    apply list_elem_of_filter in He as [Hq He].
    apply list_elem_of_fmap in He as ([[[r|] gt] a] & -> & _); simpl in *; [|done].
    rewrite (high_quality_has_related_flag r Hq). by eexists. }
  split; [|split; [|split]].
  - apply agg_filter_sum_filter. exact Hrel.
  - apply agg_filter_sum_filter.
    eapply Forall_impl; [exact Hrel|]. intros e He Hand. simpl in *.
    apply He. by destruct (meta_release (meta e)) as [[|]|], (adj e) as [[|]|].
  - apply agg_filter_sum_split.
    eapply Forall_impl; [exact Hdef|]. intros e [b Hb]. simpl. rewrite Hb.
    by destruct b.
  - apply agg_filter_sum_split.
    eapply Forall_impl; [exact Hdef|]. intros e [b Hb]. simpl. rewrite Hb.
    by destruct b, (adj e) as [[|]|].
Qed.

End CountsOverMetadata.

(** ** The strand odds ratio with the strands exchanged *)
Section StrandSymmetry.
Import Py RandomForest.
Context {F : Type} `{Float64 F}.

(** X19: [calc_SOR] does not tell the two strands apart: with the
    forward and the reverse counts exchanged, for the reference and
    for the alternate allele, it gives the same value, whenever the
    sum, the product, the minimum and the maximum of two floats do
    not depend on the order of their operands. *)
Theorem calc_SOR_strand_symmetric (refFw refRv altFw altRv : Z) :
  (forall x y : F, fadd x y = fadd y x) ->
  (forall x y : F, fmul x y = fmul y x) ->
  (forall x y : F, hl_min x y = hl_min y x) ->
  (forall x y : F, hl_max x y = hl_max y x) ->
  calc_SOR [refFw; refRv; altFw; altRv] = calc_SOR [refRv; refFw; altRv; altFw].
Proof.
  intros Hadd Hmul Hmin Hmax. unfold calc_SOR, index. simpl.
  unfold mret, result_ret. f_equal.
  set (a := hl_float64 (int32_add refFw 1)). set (b := hl_float64 (int32_add refRv 1)).
  set (c := hl_float64 (int32_add altFw 1)). set (d := hl_float64 (int32_add altRv 1)).
  rewrite (Hmul b c), (Hmul d a).
  rewrite (Hadd (fdiv (fmul c b) (fmul a d)) (fdiv (fmul a d) (fmul c b))).
  rewrite (Hmin a b), (Hmax a b), (Hmin d c), (Hmax d c).
  reflexivity.
Qed.

End StrandSymmetry.

Lemma calc_SOR_strand_symmetric_witness :
  (forall x y : R, RandomForest.fadd x y = RandomForest.fadd y x)
  /\ (forall x y : R, RandomForest.fmul x y = RandomForest.fmul y x)
  /\ (forall x y : R, RandomForest.hl_min x y = RandomForest.hl_min y x)
  /\ (forall x y : R, RandomForest.hl_max x y = RandomForest.hl_max y x)
  /\ RandomForest.calc_SOR (F := R) [12; 9; 3; 0]
     = RandomForest.calc_SOR (F := R) [9; 12; 0; 3].
Proof.
  split; [exact Rplus_comm|]. split; [exact Rmult_comm|].
  split; [exact Rmin_comm|]. split; [exact Rmax_comm|].
  exact (calc_SOR_strand_symmetric (F := R) 12 9 3 0
           Rplus_comm Rmult_comm Rmin_comm Rmax_comm).
Defined.
